(** * spiderkit: the M3U8 downloader and the data files

    A shallow embedding of [src/spiderkit/downloader/m3u8_downloader.py]
    (class [M3U8Downloader]) and the properties of its three methods:

    - [_extract_segment_urls]: recursive resolution of a playlist URL to the
      ordered list of segment URLs;
    - [_merge_and_convert_segments]: the manifest and the two [ffmpeg] runs;
    - [download_video]: workspace, resolution, download, merge, cleanup.

    Python values are modelled as the code has them: [str] as [string],
    [int] as [Z], [Optional] as [option], lists as [list], the insertion
    ordered [dict] of [download_video] as an association list.  Exceptions
    are an explicit [Outcome]; the file system and the calls to the
    collaborators are threaded through a state monad.  Calls to [logger] have
    no effect on results and are left out.

    The functions of [storage/file_storage.py] are embedded after the
    downloader, in the module [Storage], on the same file system. *)

From Stdlib Require Import ZArith Lia Ascii String List Sorted DecimalString DecimalNat.
From stdpp Require Import base option list strings gmap.

Local Open Scope string_scope.
Local Open Scope Z_scope.

(** ** Python exceptions and outcomes *)

Module Py.

(** Why [m3u8.load] failed: the network fetch or the parse. *)
Inductive load_error := FetchError | ParseError.

(** The exception classes that can travel through the downloader.
    [KeyboardInterrupt] stands for those that are not subclasses of
    [Exception], which an [except Exception] clause lets through. *)
Inductive exn :=
| RecursionError
| ValueError
| TypeError
| RuntimeError
| FileExistsError
| FileNotFoundError
| IsADirectoryError
| NotADirectoryError
| CalledProcessError
| LoadError (why : load_error)
| DownloadError
| KeyboardInterrupt.

(** [isinstance(e, Exception)] *)
Definition is_Exception (e : exn) : bool :=
  match e with KeyboardInterrupt => false | _ => true end.

Inductive Outcome (A : Type) :=
| Return (a : A)
| Raise (e : exn).
Arguments Return {A} a.
Arguments Raise {A} e.

Definition is_Return {A} (r : Outcome A) : bool :=
  match r with Return _ => true | Raise _ => false end.

(** A computation over a state [S] that returns or raises. *)
Definition M (S A : Type) : Type := S -> Outcome A * S.

Definition ret {S A} (a : A) : M S A := fun s => (Return a, s).
Definition raise {S A} (e : exn) : M S A := fun s => (Raise e, s).
Definition bind {S A B} (m : M S A) (k : A -> M S B) : M S B :=
  fun s => match m s with
           | (Return a, s') => k a s'
           | (Raise e, s') => (Raise e, s')
           end.
Definition lift_outcome {S A} (r : Outcome A) : M S A := fun s => (r, s).
Definition get {S} : M S S := fun s => (Return s, s).
Definition modify {S} (f : S -> S) : M S unit := fun s => (Return tt, f s).

(** [try: body  except Exception: handler]: only subclasses of
    [Exception] are caught. *)
Definition try_except {S A} (body : M S A) (handler : exn -> M S A) : M S A :=
  fun s => match body s with
           | (Raise e, s') => if is_Exception e then handler e s' else (Raise e, s')
           | r => r
           end.

(** [try: body  finally: final]: [final] runs on every exit of [body];
    its own exception, if any, replaces the outcome of [body]. *)
Definition try_finally {S A} (body : M S A) (final : M S unit) : M S A :=
  fun s => match body s with
           | (r, s') => match final s' with
                        | (Return _, s'') => (r, s'')
                        | (Raise e, s'') => (Raise e, s'')
                        end
           end.

(** [max(l, key=key)]: the first element whose key no later element
    exceeds; [ValueError] on an empty sequence. *)
Fixpoint max_from {A} (key : A -> Z) (best : A) (l : list A) : A :=
  match l with
  | [] => best
  | x :: l' => max_from key (if key best <? key x then x else best) l'
  end.

Definition max {A} (key : A -> Z) (l : list A) : Outcome A :=
  match l with
  | [] => Raise ValueError
  | x :: l' => Return (max_from key x l')
  end.

(** [s.rsplit("/", 1)]: split at the last ["/"], if there is one. *)
Fixpoint rsplit_slash (s : string) : option (string * string) :=
  match s with
  | "" => None
  | String c t =>
      match rsplit_slash t with
      | Some (h, tl) => Some (String c h, tl)
      | None => if Ascii.eqb c "/" then Some ("", t) else None
      end
  end.

Definition rsplit1 (s : string) : list string :=
  match rsplit_slash s with
  | Some (h, tl) => [h; tl]
  | None => [s]
  end.

(** [l[0]] on a list of strings; [rsplit1] is never empty. *)
Definition item0 (l : list string) : string := hd "" l.

(** [enumerate(l)] *)
Definition enumerate {A} (l : list A) : list (nat * A) :=
  combine (seq 0 (length l)) l.

(** An insertion ordered [dict] with string keys: [d[k] = v] keeps the
    position of a key that is already there. *)
Fixpoint dict_set {V} (d : list (string * V)) (k : string) (v : V) : list (string * V) :=
  match d with
  | [] => [(k, v)]
  | (k', v') :: d' =>
      if String.eqb k' k then (k', v) :: d' else (k', v') :: dict_set d' k v
  end.

Definition dict_keys {V} (d : list (string * V)) : list string := map fst d.

End Py.
Import Py.

Declare Scope py_scope.
Delimit Scope py_scope with py.
Notation "'let!' x ':=' m 'in' k" := (bind m (fun x => k))
  (at level 10, x name, m at level 100, k at level 200) : py_scope.
Notation "'do!' m 'in' k" := (bind m (fun _ => k))
  (at level 10, m at level 100, k at level 200) : py_scope.
Local Open Scope py_scope.

(** ** The objects of the [m3u8] package

    [m3u8.load] returns an [M3U8] object.  Only the attributes the
    downloader reads are kept.  A loaded object always carries a [base_uri]
    chosen by the parser, and so do its variant playlists and segments. *)

Record StreamInfo := { bandwidth : Z }.

(** An entry of [M3U8.playlists]: one variant stream of a master playlist. *)
Record Playlist := { pl_uri : string; stream_info : StreamInfo; pl_base_uri : string }.

(** An entry of [M3U8.segments]. *)
Record Segment := { seg_uri : string; seg_base_uri : string }.

Record M3U8 := {
  is_variant : bool;
  playlists : list Playlist;
  segments : list Segment;
  base_uri : string
}.

(** The setter of [Segment.base_uri]. *)
Definition seg_set_base_uri (b : string) (s : Segment) : Segment :=
  {| seg_uri := seg_uri s; seg_base_uri := b |}.

(** The setter of [M3U8.base_uri]: the package hands the new base to the
    variant playlists and to the segments as well. *)
Definition set_base_uri (b : string) (p : M3U8) : M3U8 :=
  {| is_variant := is_variant p;
     playlists := map (fun v => {| pl_uri := pl_uri v; stream_info := stream_info v;
                                   pl_base_uri := b |}) (playlists p);
     segments := map (seg_set_base_uri b) (segments p);
     base_uri := b |}.

(** ** The file system, the trace and the collaborators *)

Inductive node := File (content : string) | Dir.

Abbreviation FS := (gmap string node).

(** The calls by which the stages of a download can be told apart, in the
    order they are made; [ok] records whether the call returned rather than
    raised.  [EvFinally] marks the entry of the [finally] clause of
    [download_video]. *)
Inductive Event :=
| EvLoad (url : string) (ok : bool)
| EvDownload (download_map : list (string * string)) (ok : bool)
| EvWrite (path content : string) (ok : bool)
| EvRun (cmd : list string) (ok : bool)
| EvFinally
| EvRmtree (path : string).

Record State := { fs : FS; trace : list Event }.

Definition log_event (ev : Event) : M State unit :=
  modify (fun st => {| fs := fs st; trace := trace st ++ [ev] |}).

Record Config := { cleanup_temp_files : bool; temp_dir : option string }.

(** What the downloader calls and this file does not define: the
    configuration, the [m3u8] and [urllib] functions, the inherited bulk
    fetch [Downloader.download_files], [subprocess.run] with [check=True]
    (a non-zero exit status raises [CalledProcessError]), and the names
    picked by [tempfile.mkdtemp] and [os.path.abspath]. *)
Record World := {
  get_config : Config;
  m3u8_load : string -> load_error + M3U8;
  is_url : string -> bool;
  urijoin : string -> string -> string;
  urljoin : string -> string -> string;
  download_files : list (string * string) -> FS -> Outcome unit * FS;
  subprocess_run : list string -> FS -> Outcome unit * FS;
  mkdtemp_name : string -> FS -> string;
  abspath : string -> string
}.

(** ** [_extract_segment_urls] *)

Section Resolver.
Context (w : World).

(** [m3u8.load(m3u8_url)] *)
Definition load (m3u8_url : string) : M State M3U8 :=
  match m3u8_load w m3u8_url with
  | inl why => do! log_event (EvLoad m3u8_url false) in raise (LoadError why)
  | inr playlist => do! log_event (EvLoad m3u8_url true) in ret playlist
  end.

(** The property [Segment.absolute_uri] of the package: a URI that is
    already a URL is kept, any other is joined to the segment's base. *)
Definition absolute_uri (s : Segment) : string :=
  if is_url w (seg_uri s) then seg_uri s else urijoin w (seg_base_uri s) (seg_uri s).

(** One turn of the loop over [playlist.segments]; [not x] on a string
    holds for the empty string. *)
Definition segment_loop_body (playlist_base_uri : string)
    (segment_urls : list string) (segment : Segment) : list string :=
  let segment :=
    if String.eqb (absolute_uri segment) ""
    then seg_set_base_uri playlist_base_uri segment
    else segment in
  segment_urls ++ [absolute_uri segment].

Definition reraise {A} (e : exn) : M State A := raise e.

(** [_extract_segment_urls], run with room for [fuel] nested calls on the
    interpreter's stack.  A call for which no room is left raises
    [RecursionError]: it is the exception the interpreter raises at its
    recursion limit, the same class as the one line 55 raises. *)
Fixpoint extract_segment_urls_fuel (fuel : nat) (m3u8_url : string)
    (max_depth current_depth : Z) : M State (list string) :=
  try_except
    (if current_depth >=? max_depth then raise RecursionError
     else
       match fuel with
       | O => raise RecursionError
       | S fuel' =>
           let! playlist := load m3u8_url in
           let playlist := set_base_uri (item0 (rsplit1 m3u8_url) ++ "/") playlist in
           if is_variant playlist then
             let! selected_stream :=
               lift_outcome (max (fun p => bandwidth (stream_info p)) (playlists playlist)) in
             let stream_url := urljoin w (base_uri playlist) (pl_uri selected_stream) in
             extract_segment_urls_fuel fuel' stream_url max_depth (current_depth + 1)
           else
             ret (fold_left (segment_loop_body (base_uri playlist)) (segments playlist) [])
       end)
    reraise.

(** The call made with room on the stack for every level that [max_depth]
    allows; [download_video] asks for five. *)
Definition _extract_segment_urls (m3u8_url : string) (max_depth current_depth : Z)
  : M State (list string) :=
  extract_segment_urls_fuel (Z.to_nat (max_depth - current_depth))
    m3u8_url max_depth current_depth.

End Resolver.

(** ** The [os], [shutil] and [tempfile] calls

    The file system maps a path to what is there.  Paths are strings, as in
    the code; a path names its entry up to trailing slashes ([fs_key]).
    That is how the system reads the path of a directory; the path of a
    regular file is taken to be written without a trailing slash. *)

Module Os.

(** [s.rstrip("/")] *)
Fixpoint rstrip_slash (s : string) : string :=
  match s with
  | "" => ""
  | String c t =>
      let t' := rstrip_slash t in
      if Ascii.eqb c "/" && String.eqb t' "" then "" else String c t'
  end.

Definition fs_key (p : string) : string :=
  let r := rstrip_slash p in
  if String.eqb r "" then (if String.eqb p "" then "" else "/") else r.

Definition starts_with_slash (s : string) : bool :=
  match s with String c _ => Ascii.eqb c "/" | "" => false end.

Fixpoint ends_with_slash (s : string) : bool :=
  match s with
  | "" => false
  | String c "" => Ascii.eqb c "/"
  | String _ t => ends_with_slash t
  end.

(** [os.path.join(a, b)] *)
Definition path_join (a b : string) : string :=
  if starts_with_slash b then b
  else if String.eqb a "" || ends_with_slash a then a ++ b
  else a ++ "/" ++ b.

(** [os.path.dirname(p)] *)
Definition path_dirname (p : string) : string :=
  match rsplit_slash p with
  | None => ""
  | Some (h, _) =>
      let head := h ++ "/" in
      if String.eqb (rstrip_slash head) "" then head else rstrip_slash head
  end.

(** [os.path.exists(p)] and [os.path.isdir(p)] *)
Definition path_exists (p : string) (fs : FS) : bool :=
  match fs !! fs_key p with Some _ => true | None => false end.

Definition path_isdir (p : string) (fs : FS) : bool :=
  match fs !! fs_key p with Some Dir => true | _ => false end.

(** The directories [os.makedirs(p)] needs, outermost first: every prefix
    of [p] that ends at a ["/"], then [p] itself. *)
Fixpoint prefixes_at_slash (pre s : string) : list string :=
  match s with
  | "" => [pre]
  | String c t =>
      let pre' := pre ++ String c "" in
      (if Ascii.eqb c "/" then [pre'] else []) ++ prefixes_at_slash pre' t
  end.

Definition dir_chain (p : string) : list string :=
  filter (fun d => d <> "") (map fs_key (prefixes_at_slash "" p)).

(** [os.mkdir] that tolerates a directory that is already there; a file in
    the way is an error: [FileExistsError] at the path itself ([last]),
    [NotADirectoryError] above it. *)
Definition mkdir_exist_ok (last : bool) (d : string) (fs : FS) : Outcome unit * FS :=
  match fs !! d with
  | Some (File _) => (Raise (if last then FileExistsError else NotADirectoryError), fs)
  | Some Dir => (Return tt, fs)
  | None => (Return tt, <[d := Dir]> fs)
  end.

Fixpoint mkdir_chain (ds : list string) (fs : FS) : Outcome unit * FS :=
  match ds with
  | [] => (Return tt, fs)
  | d :: ds' =>
      match mkdir_exist_ok (match ds' with [] => true | _ => false end) d fs with
      | (Return _, fs') => mkdir_chain ds' fs'
      | r => r
      end
  end.

(** [os.makedirs(p, exist_ok=True)] *)
Definition makedirs (p : string) (fs : FS) : Outcome unit * FS :=
  mkdir_chain (dir_chain p) fs.

(** [q] is the entry [root] or lies below it. *)
Definition under (root q : string) : bool :=
  String.eqb q root
  || String.prefix (if String.eqb root "/" then root else root ++ "/") q.

(** [shutil.rmtree(p)] *)
Definition rmtree (p : string) (fs : FS) : Outcome unit * FS :=
  match fs !! fs_key p with
  | Some Dir => (Return tt, filter (fun kv => under (fs_key p) kv.1 = false) fs)
  | Some (File _) => (Raise NotADirectoryError, fs)
  | None => (Raise FileNotFoundError, fs)
  end.

(** [os.remove(p)] *)
Definition remove (p : string) (fs : FS) : Outcome unit * FS :=
  match fs !! fs_key p with
  | Some (File _) => (Return tt, delete (fs_key p) fs)
  | Some Dir => (Raise IsADirectoryError, fs)
  | None => (Raise FileNotFoundError, fs)
  end.

(** [with open(p, "w") as f: f.write(content)]: the directory of [p] must
    exist, and [p] must not be a directory. *)
Definition write_file (p content : string) (fs : FS) : Outcome unit * FS :=
  match fs !! fs_key p with
  | Some Dir => (Raise IsADirectoryError, fs)
  | _ =>
      if String.eqb (path_dirname p) "" || path_isdir (path_dirname p) fs
      then (Return tt, <[fs_key p := File content]> fs)
      else (Raise FileNotFoundError, fs)
  end.

End Os.

(** An operation on the file system, as a computation on [State]. *)
Definition on_fs {A} (op : FS -> Outcome A * FS) : M State A :=
  fun st => let (r, fs') := op (fs st) in (r, {| fs := fs'; trace := trace st |}).

(** The same, recorded in the trace with its outcome. *)
Definition call_fs {A} (ev : bool -> Event) (op : FS -> Outcome A * FS) : M State A :=
  fun st => let (r, fs') := op (fs st) in
            (r, {| fs := fs'; trace := trace st ++ [ev (is_Return r)] |}).

Definition os_path_exists (p : string) : M State bool :=
  fun st => (Return (Os.path_exists p (fs st)), st).

(** ** [_merge_and_convert_segments] *)

Section Pipeline.
Context (w : World).

(** [subprocess.run(cmd, stdout=PIPE, stderr=PIPE, check=True)] *)
Definition run (cmd : list string) : M State unit :=
  call_fs (EvRun cmd) (subprocess_run w cmd).

Definition newline : string := String (ascii_of_nat 10) "".

(** What the loop over [segment_files] writes to the manifest. *)
Definition file_list_content (segment_files : list string) : string :=
  fold_left (fun written file_path => written ++ "file '" ++ abspath w file_path ++ "'" ++ newline)
    segment_files "".

Definition merge_cmd (file_list_path intermediate_ts_path : string) : list string :=
  ["ffmpeg"; "-y"; "-f"; "concat"; "-safe"; "0"; "-i"; file_list_path; "-c"; "copy";
   intermediate_ts_path].

Definition convert_cmd (intermediate_ts_path final_output_path : string) : list string :=
  ["ffmpeg"; "-y"; "-i"; intermediate_ts_path; "-c"; "copy"; "-movflags"; "faststart";
   final_output_path].

(** The [finally] clause: the manifest is removed if it is there. *)
Definition remove_file_list (file_list_path : string) : M State unit :=
  let! there := os_path_exists file_list_path in
  if there then on_fs (Os.remove file_list_path) else ret tt.

(** The body of the [try]. *)
Definition merge_and_convert_body (segment_files : list string)
    (file_list_path intermediate_ts_path final_output_path : string) : M State bool :=
  do! call_fs (EvWrite file_list_path (file_list_content segment_files))
        (Os.write_file file_list_path (file_list_content segment_files)) in
  do! run (merge_cmd file_list_path intermediate_ts_path) in
  do! run (convert_cmd intermediate_ts_path final_output_path) in
  ret true.

Definition _merge_and_convert_segments (segment_files : list string)
    (intermediate_ts_path final_output_path : string) : M State bool :=
  let file_list_path := intermediate_ts_path ++ ".txt" in
  try_finally
    (try_except
       (merge_and_convert_body segment_files file_list_path intermediate_ts_path
          final_output_path)
       (fun _ => ret false))
    (remove_file_list file_list_path).

(** ** [download_video] *)

(** The frame of one call: the state, and the two parameters that the
    [try] block assigns and the [finally] clause reads. *)
Record Frame := {
  state : State;
  cleanup_temp : option bool;
  temp_directory : option string
}.

Definition in_frame {A} (m : M State A) : M Frame A :=
  fun fr => let (r, st') := m (state fr) in
            (r, {| state := st'; cleanup_temp := cleanup_temp fr;
                   temp_directory := temp_directory fr |}).

Definition set_cleanup_temp (v : option bool) : M Frame unit :=
  modify (fun fr => {| state := state fr; cleanup_temp := v;
                       temp_directory := temp_directory fr |}).

Definition set_temp_directory (v : option string) : M Frame unit :=
  modify (fun fr => {| state := state fr; cleanup_temp := cleanup_temp fr;
                       temp_directory := v |}).

(** Truth value of an [Optional[str]] and of an [Optional[bool]]. *)
Definition truthy_str (v : option string) : bool :=
  match v with Some s => negb (String.eqb s "") | None => false end.

Definition truthy_bool (v : option bool) : bool :=
  match v with Some b => b | None => false end.

(** [tempfile.mkdtemp(prefix=prefix)]: a new directory, whose path is returned. *)
Definition mkdtemp (prefix : string) : M State string :=
  fun st =>
    let name := mkdtemp_name w prefix (fs st) in
    (Return name, {| fs := <[Os.fs_key name := Dir]> (fs st); trace := trace st |}).

(** [f"{idx:04d}"]: decimal, padded with zeros on the left to four
    characters at least. *)
Definition decimal (n : nat) : string := NilEmpty.string_of_uint (Nat.to_uint n).

Fixpoint zeros (n : nat) : string :=
  match n with O => "" | S k => String "0" (zeros k) end.

Definition format_04d (idx : nat) : string :=
  let digits := decimal idx in
  zeros (4 - String.length digits) ++ digits.

Definition segment_name (idx : nat) : string := "segment_" ++ format_04d idx ++ ".ts".

(** The dict comprehension of [download_video]. *)
Definition make_download_map (segments_dir : string) (segment_urls : list string)
  : list (string * string) :=
  fold_left (fun d '(idx, url) => dict_set d (Os.path_join segments_dir (segment_name idx)) url)
    (enumerate segment_urls) [].

(** Lines 132 to 142: the flag and the working directories. *)
Definition prepare_workspace : M Frame string :=
  let config := get_config w in
  let! fr := get in
  do! (if cleanup_temp fr is None
       then set_cleanup_temp (Some (cleanup_temp_files config))
       else ret tt) in
  do! (if negb (truthy_str (temp_directory fr))
       then
         if truthy_str (temp_dir config)
         then set_temp_directory (temp_dir config)
         else let! made := in_frame (mkdtemp "m3u8_download_") in
              set_temp_directory (Some made)
       else in_frame (on_fs (Os.makedirs (default "" (temp_directory fr))))) in
  let! fr := get in
  let segments_dir := Os.path_join (default "" (temp_directory fr)) "ts_segments" in
  do! in_frame (on_fs (Os.makedirs segments_dir)) in
  ret segments_dir.

(** Lines 144 to 164: output directory, resolution, download, merge. *)
Definition run_stages (m3u8_url output_path segments_dir : string) : M Frame unit :=
  let output_dir := Os.path_dirname output_path in
  do! (if negb (String.eqb output_dir "")
       then in_frame (on_fs (Os.makedirs output_dir))
       else ret tt) in
  let! segment_urls := in_frame (_extract_segment_urls w m3u8_url 5 0) in
  let download_map := make_download_map segments_dir segment_urls in
  do! in_frame (call_fs (EvDownload download_map) (download_files w download_map)) in
  let segment_files := dict_keys download_map in
  let! fr := get in
  let merged_ts_path := Os.path_join (default "" (temp_directory fr)) "merged_video.ts" in
  let! success :=
    in_frame (_merge_and_convert_segments segment_files merged_ts_path output_path) in
  if negb success then raise RuntimeError else ret tt.

(** The [finally] clause of [download_video]. *)
Definition cleanup_workspace : M Frame unit :=
  do! in_frame (log_event EvFinally) in
  let! fr := get in
  if truthy_bool (cleanup_temp fr) then
    match temp_directory fr with
    | None => raise TypeError
    | Some dir =>
        let! there := in_frame (os_path_exists dir) in
        if there then
          do! in_frame (log_event (EvRmtree dir)) in
          in_frame (on_fs (Os.rmtree dir))
        else ret tt
    end
  else ret tt.

Definition download_video_frame (m3u8_url output_path : string) : M Frame unit :=
  try_finally
    (try_except
       (let! segments_dir := prepare_workspace in
        run_stages m3u8_url output_path segments_dir)
       (fun e => raise e))
    cleanup_workspace.

Definition download_video (m3u8_url output_path : string)
    (temp_directory : option string) (cleanup_temp : option bool) : M State unit :=
  fun st =>
    let (r, fr) := download_video_frame m3u8_url output_path
                     {| state := st; cleanup_temp := cleanup_temp;
                        temp_directory := temp_directory |} in
    (r, state fr).

End Pipeline.


(** * The data files: [storage/file_storage.py]

    [save_data_to_file] and its helpers write records as CSV, JSON or JSON
    Lines.  The same file system is used as for the downloader; a file
    holds its text (the byte order mark of [utf-8-sig] is not part of it,
    and a file has size zero when its text is empty).  The writers are given
    the path of the file as [pathlib] prints it.  Every function wraps its
    body in [try: ... except Exception: logger.exception(...); raise],
    which changes no result and is left out. *)

Module Storage.

(** The values a record is made of. *)
#[warnings="-register-all"]
Inductive value :=
| VNone
| VBool (b : bool)
| VInt (z : Z)
| VStr (s : string)
| VList (items : list value)
| VDict (items : list (string * value)).

(** The exceptions of this module: those of the downloader, and two
    more. *)
Inductive error :=
| Exn (e : exn)
| IndexError
| AttributeError.

Inductive Result (A : Type) :=
| Ok (a : A)
| Err (e : error).
Arguments Ok {A} a.
Arguments Err {A} e.

Definition of_outcome {A} (r : Outcome A) : Result A :=
  match r with
  | Return a => Ok a
  | Raise e => Err (Exn e)
  end.

(** [bool(v)] *)
Definition truthy (v : value) : bool :=
  match v with
  | VNone => false
  | VBool b => b
  | VInt z => negb (z =? 0)
  | VStr s => negb (String.eqb s "")
  | VList items => match items with [] => false | _ => true end
  | VDict items => match items with [] => false | _ => true end
  end.

(** [isinstance(v, dict)] *)
Definition is_dict (v : value) : bool :=
  match v with VDict _ => true | _ => false end.

(** [isinstance(v, list) and all(isinstance(item, dict) for item in v)] *)
Definition is_dict_list (v : value) : bool :=
  match v with VList items => forallb is_dict items | _ => false end.

(** [d.get(k, default)] *)
Fixpoint dict_get (items : list (string * value)) (k : string) (default : value) : value :=
  match items with
  | [] => default
  | (k', v) :: rest => if String.eqb k' k then v else dict_get rest k default
  end.

(** What the module takes from outside: the three defaults of the
    configuration, the [json] and [csv] codecs, and what [open] does with
    a mode other than ["w"] and ["a"] (it raises, or gives the text the
    writes are added to). *)
Record Env := {
  storage_default_format : string;
  storage_default_dir : string;
  storage_default_mode : string;
  (** [json.dump(v, f, ensure_ascii=False, indent=2)] *)
  json_dump : value -> string;
  (** [json.dumps(v, ensure_ascii=False)] *)
  json_dumps : value -> string;
  (** [json.load(f)]; [None] stands for [JSONDecodeError] *)
  json_load : string -> option value;
  (** one row of [csv.writer], with its line terminator *)
  csv_line : list value -> string;
  open_other : string -> string -> FS -> Result string * FS
}.

(** [_normalize_records] *)
Definition _normalize_records (data : value) : Result (list value) :=
  match data with
  | VDict _ => Ok [data]
  | VList items => if forallb is_dict items then Ok items else Err (Exn TypeError)
  | _ => Err (Exn TypeError)
  end.

(** [_record_count]: [len] is defined on lists, dicts and strings. *)
Definition _record_count (data : value) : Result nat :=
  match data with
  | VDict _ => Ok 1%nat
  | VList items => Ok (length items)
  | VStr s => Ok (String.length s)
  | _ => Err (Exn TypeError)
  end.

(** [file_path.exists() and file_path.stat().st_size > 0] *)
Definition exists_nonempty (file_path : string) (fs : FS) : bool :=
  match fs !! Os.fs_key file_path with
  | Some (File text) => negb (String.eqb text "")
  | Some Dir => true
  | None => false
  end.

(** [open(file_path, "r")] and the reading of the whole text *)
Definition read_text (file_path : string) (fs : FS) : Result string :=
  match fs !! Os.fs_key file_path with
  | Some (File text) => Ok text
  | Some Dir => Err (Exn IsADirectoryError)
  | None => Err (Exn FileNotFoundError)
  end.

(** ** [pathlib]

    A [Path] keeps the root of the string it is made from and the names
    between its slashes, without the empty ones and without ["."].  Two
    leading slashes, and only two, are a root of their own; [".."] stays. *)
Record Path := { anchor : string; names : list string }.

Fixpoint leading_slashes (s : string) : nat :=
  match s with
  | "" => 0%nat
  | String c t => if Ascii.eqb c "/" then S (leading_slashes t) else 0%nat
  end.

(** [s.split("/")]; [name] is the part read so far. *)
Fixpoint split_slash (name s : string) : list string :=
  match s with
  | "" => [name]
  | String c t =>
      if Ascii.eqb c "/" then name :: split_slash "" t
      else split_slash (name ++ String c "") t
  end.

(** [Path(s)] *)
Definition path (s : string) : Path :=
  {| anchor := match leading_slashes s with
               | 0%nat => ""
               | 2%nat => "//"
               | _ => "/"
               end;
     names := List.filter (fun name => negb (String.eqb name "" || String.eqb name "."))
                (split_slash "" s) |}.

(** [str(p)] *)
Definition path_str (p : Path) : string :=
  match names p with
  | [] => if String.eqb (anchor p) "" then "." else anchor p
  | _ => anchor p ++ String.concat "/" (names p)
  end.

(** [p / name] *)
Definition joinpath (p : Path) (name : string) : Path :=
  path (Os.path_join (path_str p) name).

(** [p.parent]; a path without names is its own parent. *)
Definition parent (p : Path) : Path :=
  {| anchor := anchor p; names := removelast (names p) |}.

(** The paths from the first name of a path down to the path itself;
    [above] is what stands before the names. *)
Fixpoint ancestors (above : string) (names : list string) : list string :=
  match names with
  | [] => []
  | name :: rest => (above ++ name) :: ancestors (above ++ name ++ "/") rest
  end.

(** [p.mkdir(parents=True, exist_ok=True)]: the directories that are
    missing are made, outermost first.  The root and the working directory
    are there, so a path without names makes nothing. *)
Definition mkdir_parents (p : Path) (fs : FS) : Outcome unit * FS :=
  Os.mkdir_chain (map Os.fs_key (ancestors (anchor p) (names p))) fs.

Section WithEnv.
Context (env : Env).

(** [open(file_path, mode)] for writing: the text that is in the file
    once it is open.  ["w"] empties the file, ["a"] keeps it; both create
    it when it is missing. *)
Definition open_text (file_path mode : string) (fs : FS) : Result string * FS :=
  if String.eqb mode "w" then
    match Os.write_file file_path "" fs with
    | (Return _, fs') => (Ok "", fs')
    | (Raise e, fs') => (Err (Exn e), fs')
    end
  else if String.eqb mode "a" then
    match fs !! Os.fs_key file_path with
    | Some (File text) => (Ok text, fs)
    | _ =>
        match Os.write_file file_path "" fs with
        | (Return _, fs') => (Ok "", fs')
        | (Raise e, fs') => (Err (Exn e), fs')
        end
    end
  else open_other env file_path mode fs.

(** [with open(file_path, mode) as f: body]: what [body] has written
    when it returns or raises is in the file when it is closed. *)
Definition with_open (file_path mode : string) (body : Result unit * string) (fs : FS)
  : Result unit * FS :=
  match open_text file_path mode fs with
  | (Err e, fs') => (Err e, fs')
  | (Ok text, fs') => (body.1, <[Os.fs_key file_path := File (text ++ body.2)]> fs')
  end.

(** [DictWriter._dict_to_list] with [extrasaction="raise"] and
    [restval=""] *)
Definition dict_to_list (fieldnames : list string) (row : value) : Result (list value) :=
  match row with
  | VDict items =>
      if forallb (fun k => existsb (String.eqb k) fieldnames) (map fst items)
      then Ok (map (fun f => dict_get items f (VStr "")) fieldnames)
      else Err (Exn ValueError)
  | _ => Err AttributeError
  end.

(** [DictWriter.writerows]: the rows are converted and written one after
    the other; [written] is the text written so far. *)
Fixpoint writerows (fieldnames : list string) (rows : list value) (written : string)
  : Result unit * string :=
  match rows with
  | [] => (Ok tt, written)
  | row :: rest =>
      match dict_to_list fieldnames row with
      | Ok cells => writerows fieldnames rest (written ++ csv_line env cells)
      | Err e => (Err e, written)
      end
  end.

(** [DictWriter.writeheader] writes the field names as a row. *)
Definition header_line (fieldnames : list string) : string :=
  csv_line env (map VStr fieldnames).

(** The body of the [with] of [_save_csv] *)
Definition save_csv_body (data : list value) (mode : string) (file_exists : bool)
  : Result unit * string :=
  match data with
  | [] => (Err IndexError, "")
  | VDict items :: _ =>
      let fieldnames := map fst items in
      writerows fieldnames data
        (if String.eqb mode "w" || negb file_exists then header_line fieldnames else "")
  | _ :: _ => (Err AttributeError, "")
  end.

(** [_save_csv] *)
Definition _save_csv (data : list value) (file_path mode : string) (fs : FS)
  : Result unit * FS :=
  let file_exists := exists_nonempty file_path fs in
  with_open file_path mode (save_csv_body data mode file_exists) fs.

(** [_save_json]: the file is always opened with ["w"]; [mode] only
    decides whether what is there is read first. *)
Definition _save_json (data : value) (file_path mode : string) (fs : FS)
  : Result unit * FS :=
  if negb (is_dict data) && negb (is_dict_list data) then (Err (Exn TypeError), fs)
  else
    let target_data :=
      if String.eqb mode "a" && exists_nonempty file_path fs then
        match read_text file_path fs with
        | Err e => Err e
        | Ok text =>
            match json_load env text with
            | None => Err (Exn ValueError)
            | Some (VList existing) =>
                match data with
                | VDict _ => Ok (VList (existing ++ [data]))
                | VList items => Ok (VList (existing ++ items))
                | _ => Err (Exn TypeError)
                end
            | Some _ => Ok data
            end
        end
      else Ok data in
    match target_data with
    | Err e => (Err e, fs)
    | Ok target_data =>
        match Os.write_file file_path (json_dump env target_data) fs with
        | (Raise e, fs') => (Err (Exn e), fs')
        | (Return _, fs') =>
            match _record_count data with
            | Ok _ => (Ok tt, fs')
            | Err e => (Err e, fs')
            end
        end
    end.

(** [_save_jsonl] *)
Definition _save_jsonl (data : list value) (file_path mode : string) (fs : FS)
  : Result unit * FS :=
  with_open file_path mode
    (Ok tt, fold_left (fun written item => written ++ json_dumps env item ++ newline)
              data "")
    fs.

(** [_build_file_path] *)
Definition _build_file_path (output_dir filename file_format : string) (fs : FS)
  : Result Path * FS :=
  let base_dir := path output_dir in
  let file_path := joinpath base_dir (filename ++ "." ++ file_format) in
  match mkdir_parents (parent file_path) fs with
  | (Return _, fs') => (Ok file_path, fs')
  | (Raise e, fs') => (Err (Exn e), fs')
  end.

(** [a or b] on an [Optional[str]] and a [str] *)
Definition or_default (a : option string) (b : string) : string :=
  if truthy_str a then default "" a else b.

(** [save_data_to_file] *)
Definition save_data_to_file (data : value) (filename : string)
    (file_format output_dir mode : option string) (fs : FS) : Result unit * FS :=
  if negb (truthy data) then (Ok tt, fs)
  else
    let file_format := or_default file_format (storage_default_format env) in
    let output_dir := or_default output_dir (storage_default_dir env) in
    let mode := or_default mode (storage_default_mode env) in
    match _build_file_path output_dir filename file_format fs with
    | (Err e, fs') => (Err e, fs')
    | (Ok file_path, fs') =>
        if String.eqb file_format "csv" then
          match _normalize_records data with
          | Ok records => _save_csv records (path_str file_path) mode fs'
          | Err e => (Err e, fs')
          end
        else if String.eqb file_format "json" then
          _save_json data (path_str file_path) mode fs'
        else if String.eqb file_format "jsonl" then
          match _normalize_records data with
          | Ok records => _save_jsonl records (path_str file_path) mode fs'
          | Err e => (Err e, fs')
          end
        else (Err (Exn ValueError), fs')
    end.

End WithEnv.

End Storage.
(** * The vocabulary of the statements *)

Section Vocabulary.
Context (w : World).

(** The base the code gives to a playlist loaded from [m3u8_url]. *)
Definition base_of (m3u8_url : string) : string := item0 (rsplit1 m3u8_url) ++ "/".

(** What a segment is resolved to under the base [b]. *)
Definition resolve_segment (b : string) (s : Segment) : string :=
  if is_url w (seg_uri s) then seg_uri s else urijoin w b (seg_uri s).

Definition bandwidth_of (v : Playlist) : Z := bandwidth (stream_info v).

Definition logged (st : State) (ev : Event) : State :=
  {| fs := fs st; trace := trace st ++ [ev] |}.

(** The first [n] playlists met from [m3u8_url] on, each reached through
    the variant selected in the one before, all load as master playlists
    with a variant to select. *)
Fixpoint master_chain (n : nat) (m3u8_url : string) : bool :=
  match n with
  | O => true
  | S k =>
      match m3u8_load w m3u8_url with
      | inl _ => false
      | inr p =>
          is_variant p &&
          match Py.max bandwidth_of (playlists p) with
          | Return sel => master_chain k (urljoin w (base_of m3u8_url) (pl_uri sel))
          | Raise _ => false
          end
      end
  end.

End Vocabulary.

(** ["/"] occurs in [s]. *)
Fixpoint contains_slash (s : string) : bool :=
  match s with
  | "" => false
  | String c t => Ascii.eqb c "/" || contains_slash t
  end.

(** The lexical order of Python strings. *)
Definition str_lt (a b : string) : Prop := String.ltb a b = true.

(** Every string is smaller than the next one in the list. *)
Fixpoint increasing (l : list string) : bool :=
  match l with
  | a :: ((b :: _) as t) => String.ltb a b && increasing t
  | _ => true
  end.

(** The destination of the segment of index [idx]. *)
Definition segment_path (segments_dir : string) (idx : nat) : string :=
  Os.path_join segments_dir (segment_name idx).

(** What [os.path.join] puts in front of a relative name. *)
Definition join_prefix (a : string) : string :=
  if String.eqb a "" || Os.ends_with_slash a then a else a ++ "/".

(** *** Reading a trace *)

Definition is_load (ev : Event) : bool :=
  match ev with EvLoad _ _ => true | _ => false end.

Definition is_run (ev : Event) : bool :=
  match ev with EvRun _ _ => true | _ => false end.

(** A call of a forward stage: resolution, download, merge or convert. *)
Definition is_forward (ev : Event) : bool :=
  match ev with
  | EvLoad _ _ | EvDownload _ _ | EvWrite _ _ _ | EvRun _ _ => true
  | EvFinally | EvRmtree _ => false
  end.

(** A call of a forward stage that raised. *)
Definition failed (ev : Event) : bool :=
  match ev with
  | EvLoad _ ok | EvDownload _ ok | EvWrite _ _ ok | EvRun _ ok => negb ok
  | EvFinally | EvRmtree _ => false
  end.

(** No call of a forward stage comes after one that raised. *)
Fixpoint aborts_after_failure (tr : list Event) : bool :=
  match tr with
  | [] => true
  | ev :: rest =>
      (if failed ev then forallb (fun e => negb (is_forward e)) rest else true)
      && aborts_after_failure rest
  end.

(** The call right after a fetch that returned is the writing of the
    manifest that lists every destination of the download map. *)
Fixpoint fetch_then_manifest (w : World) (tr : list Event) : Prop :=
  match tr with
  | [] => True
  | EvDownload download_map true :: rest =>
      (exists path ok rest',
         rest = EvWrite path (file_list_content w (dict_keys download_map)) ok :: rest')
      /\ fetch_then_manifest w rest
  | _ :: rest => fetch_then_manifest w rest
  end.

(** What the forward stages add to the trace [tr0] of the entry, with
    the outcome [r] of the [try] block: calls of forward stages only,
    none after one that raised, the manifest right after the fetch; a
    call that raised makes the block raise, and a resolution that raises
    leaves nothing but loads. *)
Definition stages_shape (w : World) (m3u8_url : string) (tr0 : list Event)
    (r : Outcome unit) (fr' : Frame) : Prop :=
  exists forward,
    trace (state fr') = (tr0 ++ forward)%list
    /\ forallb is_forward forward = true
    /\ aborts_after_failure forward = true
    /\ (forall rest, fetch_then_manifest w rest -> fetch_then_manifest w (forward ++ rest))
    /\ (existsb failed forward = true -> is_Return r = false)
    /\ (forall e st_any,
          (_extract_segment_urls w m3u8_url 5 0 st_any).1 = Raise e ->
          forallb is_load forward = true /\ is_Return r = false).

(** The manifest of [_merge_and_convert_segments]. *)
Definition file_list_path_of (intermediate_ts_path : string) : string :=
  intermediate_ts_path ++ ".txt".

(** *** The workspace of a call *)

(** The flag the [finally] clause reads. *)
Definition effective_cleanup (w : World) (cleanup_temp : option bool) : bool :=
  match cleanup_temp with
  | Some b => b
  | None => cleanup_temp_files (get_config w)
  end.

(** The working directory of a call started on the file system [fs0]. *)
Definition effective_temp_directory (w : World) (temp_directory : option string)
    (fs0 : FS) : string :=
  if truthy_str temp_directory then default "" temp_directory
  else if truthy_str (temp_dir (get_config w)) then default "" (temp_dir (get_config w))
  else mkdtemp_name w "m3u8_download_" fs0.

(** The frame of a call of [download_video] at its entry. *)
Definition entry_frame (st : State) (temp_directory : option string)
    (cleanup_temp : option bool) : Frame :=
  {| state := st; cleanup_temp := cleanup_temp; temp_directory := temp_directory |}.



(** * Concrete playlists, collaborators and calls

    A master playlist with two variants whose better variant is a media
    playlist of three segments, and collaborators simple enough to run:
    the fetch writes every file it is asked for, [ffmpeg] writes its last
    argument. *)

Module Examples.

Definition http_url (u : string) : bool :=
  String.prefix "http://" u || String.prefix "https://" u.

Definition media1 : M3U8 :=
  {| is_variant := false; playlists := [];
     segments := [ {| seg_uri := "seg0.ts"; seg_base_uri := "parser/" |};
                   {| seg_uri := "seg1.ts"; seg_base_uri := "parser/" |};
                   {| seg_uri := "http://cdn/seg2.ts"; seg_base_uri := "parser/" |} ];
     base_uri := "parser/" |}.

Definition low : Playlist :=
  {| pl_uri := "low/index.m3u8"; stream_info := {| bandwidth := 500000 |};
     pl_base_uri := "parser/" |}.

Definition high : Playlist :=
  {| pl_uri := "high/index.m3u8"; stream_info := {| bandwidth := 1200000 |};
     pl_base_uri := "parser/" |}.

(** A second variant with the greatest bandwidth, later in the document. *)
Definition high_again : Playlist :=
  {| pl_uri := "other/index.m3u8"; stream_info := {| bandwidth := 1200000 |};
     pl_base_uri := "parser/" |}.

Definition master1 : M3U8 :=
  {| is_variant := true; playlists := [low; high; high_again]; segments := [];
     base_uri := "parser/" |}.

Definition master_url : string := "http://h/v/master.m3u8".
Definition media_url : string := "http://h/v/high/index.m3u8".

Definition load1 (u : string) : load_error + M3U8 :=
  if String.eqb u master_url then inr master1
  else if String.eqb u media_url then inr media1
  else inl FetchError.

(** A file is written unless a directory is in the way. *)
Definition put_file (path content : string) (fs : FS) : FS :=
  match fs !! Os.fs_key path with
  | Some Dir => fs
  | _ => <[Os.fs_key path := File content]> fs
  end.

(** The fetch writes the URL as the content of each destination. *)
Definition fetch_all (m : list (string * string)) (fs : FS) : Outcome unit * FS :=
  (Return tt, fold_left (fun fs kv => put_file kv.1 kv.2 fs) m fs).

(** A fetch that reports completion and has written nothing. *)
Definition fetch_nothing (m : list (string * string)) (fs : FS) : Outcome unit * FS :=
  (Return tt, fs).

(** [ffmpeg] writes its output, the last word of the command. *)
Definition ffmpeg_ok (cmd : list string) (fs : FS) : Outcome unit * FS :=
  (Return tt, put_file (List.last cmd "") "video" fs).


Definition w1 : World :=
  {| get_config := {| cleanup_temp_files := true; temp_dir := None |};
     m3u8_load := load1;
     is_url := http_url;
     urijoin := fun b u => b ++ u;
     urljoin := fun b u => if http_url u then u else b ++ u;
     download_files := fetch_all;
     subprocess_run := ffmpeg_ok;
     mkdtemp_name := fun prefix _ => "/tmp/" ++ prefix ++ "0";
     abspath := fun p => p |}.

(** The same collaborators, with the fetch that writes nothing. *)
Definition w_no_files : World :=
  {| get_config := get_config w1; m3u8_load := load1; is_url := http_url;
     urijoin := urijoin w1; urljoin := urljoin w1;
     download_files := fetch_nothing;
     subprocess_run := ffmpeg_ok;
     mkdtemp_name := mkdtemp_name w1; abspath := abspath w1 |}.


Definition st0 : State := {| fs := ∅; trace := [] |}.

(** A requested working directory that is already there. *)
Definition st_ws : State := {| fs := {[ "/tmp/ws" := Dir ]}; trace := [] |}.

(** A regular file where a parent of the working directory should be. *)
Definition st_blocked : State :=
  {| fs := {[ "/" := Dir; "/tmp" := Dir; "/tmp/f" := File "data" ]}; trace := [] |}.

(** The three destinations of the segments of [media1] under ["/tmp/ws"]. *)
Definition media1_files : list string :=
  [ "/tmp/ws/ts_segments/segment_0000.ts";
    "/tmp/ws/ts_segments/segment_0001.ts";
    "/tmp/ws/ts_segments/segment_0002.ts" ].

(** Ten thousand and one segment URLs. *)
Definition many_urls : list string := repeat "http://h/v/seg.ts" (Z.to_nat 10001).

End Examples.


(** * The chain of playlists the resolver follows *)

Section Chain.
Context (w : World).

(** The URL the resolver goes on with after [m3u8_url]: that of the
    selected variant, when [m3u8_url] loads as a master playlist that has
    variants. *)
Definition selected_url (m3u8_url : string) : option string :=
  match m3u8_load w m3u8_url with
  | inl _ => None
  | inr p =>
      if is_variant p then
        match Py.max bandwidth_of (playlists p) with
        | Return sel => Some (urljoin w (base_of m3u8_url) (pl_uri sel))
        | Raise _ => None
        end
      else None
  end.

(** The URL reached from [m3u8_url] after [n] selections. *)
Fixpoint nth_url (n : nat) (m3u8_url : string) : option string :=
  match n with
  | O => Some m3u8_url
  | S k =>
      match selected_url m3u8_url with
      | Some u => nth_url k u
      | None => None
      end
  end.

(** The loads of the first [n] playlists of the chain. *)
Fixpoint chain_loads (n : nat) (m3u8_url : string) : list Event :=
  match n with
  | O => []
  | S k =>
      EvLoad m3u8_url true ::
      match selected_url m3u8_url with
      | Some u => chain_loads k u
      | None => []
      end
  end.

End Chain.

Module MoreExamples.
Import Examples.

(** A master playlist that lists no variant stream. *)
Definition master_empty : M3U8 :=
  {| is_variant := true; playlists := []; segments := []; base_uri := "parser/" |}.

Definition empty_url : string := "http://h/v/empty.m3u8".

Definition load2 (u : string) : load_error + M3U8 :=
  if String.eqb u empty_url then inr master_empty
  else load1 u.

Definition w2 : World :=
  {| get_config := get_config w1; m3u8_load := load2; is_url := http_url;
     urijoin := urijoin w1; urljoin := urljoin w1;
     download_files := fetch_all;
     subprocess_run := ffmpeg_ok;
     mkdtemp_name := mkdtemp_name w1; abspath := abspath w1 |}.

(** Every URL is the media playlist [media1]. *)
Definition w_media : World :=
  {| get_config := get_config w1; m3u8_load := fun _ => inr media1; is_url := http_url;
     urijoin := urijoin w1; urljoin := urljoin w1;
     download_files := fetch_all;
     subprocess_run := ffmpeg_ok;
     mkdtemp_name := mkdtemp_name w1; abspath := abspath w1 |}.

End MoreExamples.

(** * Records and a small environment for the data files *)

(** A path that names the entry its text spells: it has one leading slash
    at most and no step back to a parent directory. *)
Definition plain (p : Storage.Path) : bool :=
  negb (String.eqb (Storage.anchor p) "//")
  && forallb (fun name => negb (String.eqb name "..")) (Storage.names p).

Module StorageExamples.
Import Storage.

Definition rec_a : value := VDict [("id", VInt 1); ("name", VStr "a")].
Definition rec_b : value := VDict [("id", VInt 2); ("name", VStr "b")].

(** A record with a field the others do not have. *)
Definition rec_stray : value := VDict [("id", VInt 3); ("extra", VStr "x")].

(** A plain rendering of scalars, of flat records and of lists of them. *)
Definition show_scalar (v : value) : string :=
  match v with
  | VNone => ""
  | VBool b => if b then "True" else "False"
  | VInt z => (if z <? 0 then "-" else "") ++ decimal (Z.abs_nat z)
  | VStr s => s
  | VList _ => "[...]"
  | VDict _ => "{...}"
  end.

Definition show_record (items : list (string * value)) : string :=
  "{" ++ String.concat ", " (map (fun kv => kv.1 ++ ": " ++ show_scalar kv.2) items) ++ "}".

Definition show (v : value) : string :=
  match v with
  | VDict items => show_record items
  | VList items =>
      "[" ++ String.concat ", "
               (map (fun item => match item with
                                 | VDict items => show_record items
                                 | _ => show_scalar item
                                 end) items) ++ "]"
  | _ => show_scalar v
  end.

(** The values the reader of this environment knows. *)
Definition known : list value :=
  [ rec_a; rec_b; VList [rec_a]; VList [rec_a; rec_b] ].

Definition read (text : string) : option value :=
  List.find (fun v => String.eqb (show v) text) known.

Definition crlf : string := String (ascii_of_nat 13) (String (ascii_of_nat 10) "").

Definition env1 : Env :=
  {| storage_default_format := "json";
     storage_default_dir := "data";
     storage_default_mode := "w";
     json_dump := show;
     json_dumps := show;
     json_load := read;
     csv_line := fun cells => String.concat "," (map show_scalar cells) ++ crlf;
     open_other := fun _ _ fs => (Err (Exn ValueError), fs) |}.

(** The output directory is there, and nothing else. *)
Definition fs_data : FS := {[ "data" := Dir ]}.

(** The same, with a JSON file that holds the list of [rec_a]. *)
Definition fs_list : FS :=
  {[ "data" := Dir; "data/out.json" := File (show (VList [rec_a])) ]}.

End StorageExamples.

(** * Properties *)

(** ** Generic facts about the monad and the Python helpers *)

Lemma try_except_reraise {A} (m : M State A) (st : State) :
  try_except m reraise st = m st.
Proof.
  unfold try_except, reraise, raise.
  destruct (m st) as [[a|e] st']; [reflexivity|].
  destruct (is_Exception e); reflexivity.
Qed.

(** [max] picks the first element with the greatest key: everything before
    it is strictly smaller, nothing after it is greater. *)
Lemma max_from_first {A} (key : A -> Z) (l : list A) (best : A) :
  exists pre post,
    best :: l = (pre ++ max_from key best l :: post)%list
    /\ Forall (fun x => key x < key (max_from key best l)) pre
    /\ Forall (fun x => key x <= key (max_from key best l)) post.
Proof.
  revert best. induction l as [|x l IH]; intros best; simpl.
  - exists [], []. repeat split; constructor.
  - destruct (Z.ltb_spec (key best) (key x)) as [Hlt|Hge].
    + destruct (IH x) as (pre & post & Heq & Hpre & Hpost).
      exists (best :: pre), post. repeat split.
      * simpl. rewrite <- Heq. reflexivity.
      * constructor; [|exact Hpre].
        assert (Hx : key x <= key (max_from key x l)).
        { destruct pre as [|y pre']; simpl in Heq.
          - injection Heq as Hy _. rewrite <- Hy. lia.
          - injection Heq as Hy _. subst y.
            apply Forall_cons in Hpre as [Hy _]. lia. }
        lia.
      * exact Hpost.
    + destruct (IH best) as (pre & post & Heq & Hpre & Hpost).
      destruct pre as [|y pre']; simpl in Heq.
      * injection Heq as Hy Hl.
        exists [], (x :: post). repeat split.
        -- simpl. congruence.
        -- constructor.
        -- constructor; [|exact Hpost]. rewrite <- Hy. lia.
      * injection Heq as Hy Hl. subst y.
        apply Forall_cons in Hpre as [Hy Hpre].
        exists (best :: x :: pre'), post. repeat split.
        -- simpl. do 2 f_equal. exact Hl.
        -- constructor; [exact Hy|]. constructor; [lia|exact Hpre].
        -- exact Hpost.
Qed.

Lemma max_from_map {A B} (f : A -> B) (keyA : A -> Z) (keyB : B -> Z) l best :
  (forall x, keyB (f x) = keyA x) ->
  max_from keyB (f best) (map f l) = f (max_from keyA best l).
Proof.
  intros Hkey. revert best. induction l as [|x l IH]; intros best; simpl; [reflexivity|].
  rewrite !Hkey. destruct (keyA best <? keyA x); apply IH.
Qed.

(** ** The resolver, one call at a time *)

Section ResolverFacts.
Context (w : World).

Lemma segment_loop_map (b : string) (segs : list Segment) (acc : list string) :
  fold_left (segment_loop_body w b) (map (seg_set_base_uri b) segs) acc
  = (acc ++ map (resolve_segment w b) segs)%list.
Proof.
  revert acc. induction segs as [|s segs IH]; intros acc; simpl.
  - rewrite app_nil_r. reflexivity.
  - rewrite IH. unfold segment_loop_body at 1.
    assert (Hs : absolute_uri w
                   (if String.eqb (absolute_uri w (seg_set_base_uri b s)) ""
                    then seg_set_base_uri b (seg_set_base_uri b s)
                    else seg_set_base_uri b s) = resolve_segment w b s).
    { destruct (String.eqb _ _); reflexivity. }
    rewrite Hs, <- app_assoc. reflexivity.
Qed.

Lemma max_set_base_uri (b : string) (p : M3U8) :
  Py.max (fun v => bandwidth (stream_info v)) (playlists (set_base_uri b p))
  = match Py.max bandwidth_of (playlists p) with
    | Return sel => Return {| pl_uri := pl_uri sel; stream_info := stream_info sel;
                              pl_base_uri := b |}
    | Raise e => Raise e
    end.
Proof.
  simpl. destruct (playlists p) as [|v vs]; simpl; [reflexivity|].
  f_equal.
  apply (max_from_map
           (fun v => {| pl_uri := pl_uri v; stream_info := stream_info v; pl_base_uri := b |})
           bandwidth_of).
  reflexivity.
Qed.

Lemma fuel_step (max_depth current_depth : Z) :
  current_depth < max_depth ->
  Z.to_nat (max_depth - current_depth) = S (Z.to_nat (max_depth - (current_depth + 1))).
Proof. lia. Qed.

(** One call of [_extract_segment_urls]: the depth check comes first, then
    the fetch, then either the recursive call on the selected variant or
    the list of resolved segments. *)
Lemma extract_segment_urls_unfold (m3u8_url : string) (max_depth current_depth : Z)
    (st : State) :
  _extract_segment_urls w m3u8_url max_depth current_depth st =
  if current_depth >=? max_depth then (Raise RecursionError, st)
  else
    match m3u8_load w m3u8_url with
    | inl why => (Raise (LoadError why), logged st (EvLoad m3u8_url false))
    | inr p =>
        if is_variant p then
          match Py.max bandwidth_of (playlists p) with
          | Raise e => (Raise e, logged st (EvLoad m3u8_url true))
          | Return sel =>
              _extract_segment_urls w (urljoin w (base_of m3u8_url) (pl_uri sel))
                max_depth (current_depth + 1) (logged st (EvLoad m3u8_url true))
          end
        else
          (Return (map (resolve_segment w (base_of m3u8_url)) (segments p)),
           logged st (EvLoad m3u8_url true))
    end.
Proof.
  unfold _extract_segment_urls.
  destruct (Z.geb_spec current_depth max_depth) as [Hge|Hlt].
  - destruct (Z.to_nat (max_depth - current_depth)); simpl;
      rewrite try_except_reraise;
      destruct (Z.geb_spec current_depth max_depth); try lia; reflexivity.
  - rewrite (fuel_step _ _ Hlt). simpl. rewrite try_except_reraise.
    destruct (Z.geb_spec current_depth max_depth); [lia|].
    unfold bind at 1, load, bind at 1, log_event, modify. simpl.
    fold (logged st (EvLoad m3u8_url true)).
    destruct (m3u8_load w m3u8_url) as [why|p]; [reflexivity|].
    unfold ret at 1. simpl.
    destruct (is_variant p); [|].
    + unfold bind, lift_outcome. fold (base_of m3u8_url).
      pose proof (max_set_base_uri (base_of m3u8_url) p) as Hmax.
      simpl in Hmax. rewrite Hmax.
      destruct (Py.max bandwidth_of (playlists p)) as [sel|e]; reflexivity.
    + unfold ret. fold (base_of m3u8_url).
      rewrite segment_loop_map. reflexivity.
Qed.

End ResolverFacts.

(** ** The resolver with the stack it is given

    [extract_segment_urls_fuel] takes the number of nested calls the
    interpreter still has room for; when none is left, the call raises
    [RecursionError], as the interpreter does at its recursion limit. *)

Section ResolverFuel.
Context (w : World).

Lemma extract_fuel_unfold (fuel : nat) (m3u8_url : string) (max_depth current_depth : Z)
    (st : State) :
  extract_segment_urls_fuel w fuel m3u8_url max_depth current_depth st =
  if current_depth >=? max_depth then (Raise RecursionError, st)
  else
    match fuel with
    | O => (Raise RecursionError, st)
    | S fuel' =>
        match m3u8_load w m3u8_url with
        | inl why => (Raise (LoadError why), logged st (EvLoad m3u8_url false))
        | inr p =>
            if is_variant p then
              match Py.max bandwidth_of (playlists p) with
              | Raise e => (Raise e, logged st (EvLoad m3u8_url true))
              | Return sel =>
                  extract_segment_urls_fuel w fuel'
                    (urljoin w (base_of m3u8_url) (pl_uri sel))
                    max_depth (current_depth + 1) (logged st (EvLoad m3u8_url true))
              end
            else
              (Return (map (resolve_segment w (base_of m3u8_url)) (segments p)),
               logged st (EvLoad m3u8_url true))
        end
    end.
Proof.
  destruct fuel as [|fuel']; simpl; rewrite try_except_reraise.
  - destruct (current_depth >=? max_depth); reflexivity.
  - destruct (current_depth >=? max_depth); [reflexivity|].
    unfold bind at 1, load, bind at 1, log_event, modify. simpl.
    fold (logged st (EvLoad m3u8_url true)).
    destruct (m3u8_load w m3u8_url) as [why|p]; [reflexivity|].
    unfold ret at 1. simpl.
    destruct (is_variant p); [|].
    + unfold bind, lift_outcome. fold (base_of m3u8_url).
      pose proof (max_set_base_uri (base_of m3u8_url) p) as Hmax.
      simpl in Hmax. rewrite Hmax.
      destruct (Py.max bandwidth_of (playlists p)) as [sel|e]; reflexivity.
    + unfold ret. fold (base_of m3u8_url).
      rewrite segment_loop_map. reflexivity.
Qed.

(** With room for [n] nested calls and [n] levels left below the depth
    limit, the call on the first playlist of a chain is the call on its
    [n]-th playlist, after the loads of the playlists in between. *)
Lemma extract_fuel_follows_chain (n fuel : nat) (m3u8_url u : string)
    (max_depth current_depth : Z) (st : State) :
  nth_url w n m3u8_url = Some u ->
  current_depth + Z.of_nat n <= max_depth ->
  (n <= fuel)%nat ->
  extract_segment_urls_fuel w fuel m3u8_url max_depth current_depth st
  = extract_segment_urls_fuel w (fuel - n) u max_depth (current_depth + Z.of_nat n)
      {| fs := fs st; trace := (trace st ++ chain_loads w n m3u8_url)%list |}.
Proof.
  revert fuel m3u8_url current_depth st.
  induction n as [|n IH]; intros fuel m3u8_url current_depth st Hnth Hdepth Hfuel.
  - simpl in Hnth. injection Hnth as <-. simpl.
    rewrite app_nil_r, Z.add_0_r, Nat.sub_0_r. destruct st; reflexivity.
  - simpl in Hnth. cbn [chain_loads].
    destruct (selected_url w m3u8_url) as [next|] eqn:Hsel; [|discriminate].
    destruct fuel as [|fuel]; [lia|].
    rewrite extract_fuel_unfold.
    destruct (Z.geb_spec current_depth max_depth); [lia|].
    unfold selected_url in Hsel.
    destruct (m3u8_load w m3u8_url) as [why|p]; [discriminate|].
    destruct (is_variant p); [|discriminate].
    destruct (Py.max bandwidth_of (playlists p)) as [sel|e]; [|discriminate].
    injection Hsel as <-.
    rewrite (IH fuel _ (current_depth + 1) _ Hnth) by lia.
    unfold logged. cbn [fs trace]. rewrite <- app_assoc.
    replace (current_depth + 1 + Z.of_nat n) with (current_depth + Z.of_nat (S n)) by lia.
    reflexivity.
Qed.

(** A call only adds to the trace. *)
Lemma extract_trace_extends (m3u8_url : string) (max_depth current_depth : Z)
    (st : State) :
  exists loads,
    trace (_extract_segment_urls w m3u8_url max_depth current_depth st).2
    = (trace st ++ loads)%list.
Proof.
  remember (Z.to_nat (max_depth - current_depth)) as n eqn:Hn.
  revert m3u8_url current_depth st Hn.
  induction n as [|n IH]; intros m3u8_url current_depth st Hn;
    rewrite extract_segment_urls_unfold.
  - destruct (Z.geb_spec current_depth max_depth); [|lia].
    exists []. rewrite app_nil_r. reflexivity.
  - destruct (Z.geb_spec current_depth max_depth); [lia|].
    destruct (m3u8_load w m3u8_url) as [why|p]; [eexists; reflexivity|].
    destruct (is_variant p); [|eexists; reflexivity].
    destruct (Py.max bandwidth_of (playlists p)) as [sel|e]; [|eexists; reflexivity].
    destruct (IH (urljoin w (base_of m3u8_url) (pl_uri sel)) (current_depth + 1)
                (logged st (EvLoad m3u8_url true)) ltac:(lia)) as (loads & Htr).
    exists (EvLoad m3u8_url true :: loads). rewrite Htr. unfold logged. cbn [trace].
    rewrite <- app_assoc. reflexivity.
Qed.

End ResolverFuel.

(** ** The resolver: depth, selection, segments, base *)

Lemma rsplit_slash_none (s : string) :
  contains_slash s = false -> rsplit_slash s = None.
Proof.
  induction s as [|c t IH]; simpl; [reflexivity|].
  intros H. apply orb_false_iff in H as [Hc Ht].
  rewrite (IH Ht), Hc. reflexivity.
Qed.

Lemma rsplit_slash_last (pre post : string) :
  contains_slash post = false ->
  rsplit_slash (pre ++ "/" ++ post) = Some (pre, post).
Proof.
  intros Hpost. induction pre as [|c pre IH].
  - change (rsplit_slash ("" ++ "/" ++ post))
      with (match rsplit_slash post with
            | Some (h, tl) => Some (String "/" h, tl)
            | None => if Ascii.eqb "/" "/" then Some ("", post) else None
            end).
    rewrite (rsplit_slash_none _ Hpost). reflexivity.
  - change (rsplit_slash (String c pre ++ "/" ++ post))
      with (match rsplit_slash (pre ++ "/" ++ post) with
            | Some (h, tl) => Some (String c h, tl)
            | None => if Ascii.eqb c "/" then Some ("", pre ++ "/" ++ post) else None
            end).
    rewrite IH. reflexivity.
Qed.

Lemma base_of_last_slash (pre post : string) :
  contains_slash post = false ->
  base_of (pre ++ "/" ++ post) = pre ++ "/".
Proof.
  intros Hpost. unfold base_of, rsplit1.
  rewrite (rsplit_slash_last _ _ Hpost). reflexivity.
Qed.

Section ResolverClaims.
Context (w : World).

(** C1 (as the code has it).  The depth check precedes the fetch, and the
    interpreter has its own limit: [fuel] is the number of nested calls
    its stack still has room for.  A call raises [RecursionError] exactly
    when the playlists met on the way, as many as there are levels below
    [max_depth] or as the stack has room for, whichever is fewer, are all
    master playlists with a variant to follow; and a call entered with
    the depth at [max_depth] raises it at once, with nothing fetched,
    whatever the playlist at that URL is. *)
Theorem recursion_error_iff_master_chain (fuel : nat) (m3u8_url : string)
    (max_depth current_depth : Z) (st : State) :
  ((extract_segment_urls_fuel w fuel m3u8_url max_depth current_depth st).1
   = Raise RecursionError
   <-> master_chain w (Nat.min fuel (Z.to_nat (max_depth - current_depth))) m3u8_url
       = true)
  /\ (max_depth <= current_depth ->
      extract_segment_urls_fuel w fuel m3u8_url max_depth current_depth st
      = (Raise RecursionError, st)).
Proof.
  split.
  - revert m3u8_url current_depth st.
    induction fuel as [|fuel IH]; intros m3u8_url current_depth st;
      rewrite extract_fuel_unfold.
    + simpl. destruct (current_depth >=? max_depth); split; reflexivity.
    + destruct (Z.geb_spec current_depth max_depth) as [Hge|Hlt].
      * replace (Z.to_nat (max_depth - current_depth)) with O by lia.
        rewrite Nat.min_0_r. simpl. split; reflexivity.
      * rewrite (fuel_step _ _ Hlt), <- Nat.succ_min_distr. simpl.
        destruct (m3u8_load w m3u8_url) as [why|p]; simpl.
        -- split; discriminate.
        -- destruct (is_variant p); simpl.
           ++ destruct (Py.max bandwidth_of (playlists p)) as [sel|e] eqn:Hmax.
              ** apply IH.
              ** destruct (playlists p); simpl in Hmax; [|discriminate].
                 injection Hmax as <-. simpl. split; discriminate.
           ++ split; discriminate.
  - intros Hle. rewrite extract_fuel_unfold.
    destruct (Z.geb_spec current_depth max_depth); [reflexivity|lia].
Qed.

(** C4.  On a master playlist with at least one variant the call goes on
    with the variant [sel] that splits the document order into variants of
    strictly smaller bandwidth before it and variants of no greater
    bandwidth after it: the greatest bandwidth, and among equals the first.
    The URL of [sel], joined to the base of the playlist, is the one that
    is loaded next, and when a media playlist is found there, its segments
    are what the call returns. *)
Theorem selects_first_greatest_bandwidth (m3u8_url : string)
    (max_depth current_depth : Z) (st : State) (p : M3U8)
    (v : Playlist) (vs : list Playlist) :
  current_depth < max_depth ->
  m3u8_load w m3u8_url = inr p ->
  is_variant p = true ->
  playlists p = v :: vs ->
  exists pre sel post,
    playlists p = (pre ++ sel :: post)%list
    /\ Forall (fun x => bandwidth_of x < bandwidth_of sel) pre
    /\ Forall (fun x => bandwidth_of x <= bandwidth_of sel) post
    /\ _extract_segment_urls w m3u8_url max_depth current_depth st
       = _extract_segment_urls w (urljoin w (base_of m3u8_url) (pl_uri sel))
           max_depth (current_depth + 1) (logged st (EvLoad m3u8_url true))
    /\ (current_depth + 1 < max_depth ->
        exists rest,
          trace (_extract_segment_urls w m3u8_url max_depth current_depth st).2
          = (trace st ++
             EvLoad m3u8_url true
             :: EvLoad (urljoin w (base_of m3u8_url) (pl_uri sel))
                  (match m3u8_load w (urljoin w (base_of m3u8_url) (pl_uri sel)) with
                   | inr _ => true
                   | inl _ => false
                   end)
             :: rest)%list)
    /\ (current_depth + 1 < max_depth ->
        forall q,
          m3u8_load w (urljoin w (base_of m3u8_url) (pl_uri sel)) = inr q ->
          is_variant q = false ->
          _extract_segment_urls w m3u8_url max_depth current_depth st
          = (Return (map (resolve_segment w
                            (base_of (urljoin w (base_of m3u8_url) (pl_uri sel))))
                       (segments q)),
             {| fs := fs st;
                trace := (trace st ++
                          [ EvLoad m3u8_url true;
                            EvLoad (urljoin w (base_of m3u8_url) (pl_uri sel)) true ])%list
             |})).
Proof.
  intros Hdepth Hload Hvariant Hvs.
  destruct (max_from_first bandwidth_of vs v) as (pre & post & Heq & Hpre & Hpost).
  set (sel := max_from bandwidth_of v vs) in *.
  set (next := urljoin w (base_of m3u8_url) (pl_uri sel)).
  assert (Hstep : _extract_segment_urls w m3u8_url max_depth current_depth st
                  = _extract_segment_urls w next max_depth (current_depth + 1)
                      (logged st (EvLoad m3u8_url true))).
  { rewrite extract_segment_urls_unfold.
    destruct (Z.geb_spec current_depth max_depth); [lia|].
    rewrite Hload, Hvariant, Hvs. reflexivity. }
  exists pre, sel, post.
  split; [rewrite Hvs; exact Heq|]. split; [exact Hpre|]. split; [exact Hpost|].
  split; [exact Hstep|]. fold next. split.
  - intros Hdeeper. rewrite Hstep, extract_segment_urls_unfold.
    destruct (Z.geb_spec (current_depth + 1) max_depth); [lia|].
    destruct (m3u8_load w next) as [why|q].
    + exists []. unfold logged. cbn [trace snd]. rewrite <- app_assoc. reflexivity.
    + destruct (is_variant q).
      * destruct (Py.max bandwidth_of (playlists q)) as [sel2|e].
        -- destruct (extract_trace_extends w
                       (urljoin w (base_of next) (pl_uri sel2)) max_depth
                       (current_depth + 1 + 1)
                       (logged (logged st (EvLoad m3u8_url true)) (EvLoad next true)))
             as (loads & Htr).
           exists loads. rewrite Htr. unfold logged. cbn [trace].
           rewrite <- !app_assoc. reflexivity.
        -- exists []. unfold logged. cbn [trace snd]. rewrite <- app_assoc. reflexivity.
      * exists []. unfold logged. cbn [trace snd]. rewrite <- app_assoc. reflexivity.
  - intros Hdeeper q Hq Hmedia. rewrite Hstep, extract_segment_urls_unfold.
    destruct (Z.geb_spec (current_depth + 1) max_depth); [lia|].
    rewrite Hq, Hmedia. unfold logged. cbn [fs trace]. rewrite <- app_assoc. reflexivity.
Qed.

(** C8.  On a media playlist the call returns one URL for each segment, in
    the order of the document: the URI itself when it is a URL already,
    otherwise the URI joined to the base of the playlist. *)
Theorem media_playlist_segment_urls (m3u8_url : string)
    (max_depth current_depth : Z) (st : State) (p : M3U8) :
  current_depth < max_depth ->
  m3u8_load w m3u8_url = inr p ->
  is_variant p = false ->
  exists urls : list string,
    _extract_segment_urls w m3u8_url max_depth current_depth st
    = (Return urls, logged st (EvLoad m3u8_url true))
    /\ length urls = length (segments p)
    /\ forall (i : nat) (s : Segment),
         segments p !! i = Some s ->
         urls !! i = Some (if is_url w (seg_uri s) then seg_uri s
                           else urijoin w (base_of m3u8_url) (seg_uri s)).
Proof.
  intros Hdepth Hload Hmedia.
  exists (map (resolve_segment w (base_of m3u8_url)) (segments p)).
  repeat split.
  - rewrite extract_segment_urls_unfold.
    destruct (Z.geb_spec current_depth max_depth); [lia|].
    rewrite Hload, Hmedia. reflexivity.
  - apply length_map.
  - intros i s Hs. rewrite list_lookup_fmap, Hs. reflexivity.
Qed.

(** C10.  For a URL with a ["/"], the base is the URL cut just after its
    last ["/"].  It is the base the selected variant is joined to and the
    base the segments are resolved against; the bases the parser left in
    the loaded object play no part. *)
Theorem base_is_url_through_last_slash (pre post : string)
    (max_depth current_depth : Z) (st : State) (p : M3U8) :
  contains_slash post = false ->
  current_depth < max_depth ->
  m3u8_load w (pre ++ "/" ++ post) = inr p ->
  base_of (pre ++ "/" ++ post) = pre ++ "/"
  /\ _extract_segment_urls w (pre ++ "/" ++ post) max_depth current_depth st
     = if is_variant p then
         match Py.max bandwidth_of (playlists p) with
         | Return sel =>
             _extract_segment_urls w (urljoin w (pre ++ "/") (pl_uri sel))
               max_depth (current_depth + 1) (logged st (EvLoad (pre ++ "/" ++ post) true))
         | Raise e => (Raise e, logged st (EvLoad (pre ++ "/" ++ post) true))
         end
       else
         (Return (map (fun s => if is_url w (seg_uri s) then seg_uri s
                                else urijoin w (pre ++ "/") (seg_uri s)) (segments p)),
          logged st (EvLoad (pre ++ "/" ++ post) true)).
Proof.
  intros Hpost Hdepth Hload.
  split; [apply base_of_last_slash; exact Hpost|].
  rewrite extract_segment_urls_unfold.
  destruct (Z.geb_spec current_depth max_depth); [lia|].
  rewrite Hload, (base_of_last_slash _ _ Hpost). reflexivity.
Qed.

End ResolverClaims.

Import Examples.

(** C1, as stated, fails: with [max_depth = 1] the master playlist is read
    at depth 0, and the call for its variant is entered at depth 1; the
    playlist there is a media playlist, and yet the call raises. *)
Lemma depth_limit_counterexample :
  m3u8_load w1 media_url = inr media1
  /\ is_variant media1 = false
  /\ _extract_segment_urls w1 media_url 1 1 st0 = (Raise RecursionError, st0)
  /\ (_extract_segment_urls w1 master_url 1 0 st0).1 = Raise RecursionError
  /\ (_extract_segment_urls w1 master_url 2 0 st0).1
     = Return ["http://h/v/high/seg0.ts"; "http://h/v/high/seg1.ts"; "http://cdn/seg2.ts"].
Proof. repeat split; vm_compute; reflexivity. Qed.

Lemma recursion_error_iff_master_chain_witness :
  1 <= 1
  /\ extract_segment_urls_fuel w1 (Z.to_nat 900) media_url 1 1 st0
     = (Raise RecursionError, st0).
Proof.
  split; [lia|].
  apply (recursion_error_iff_master_chain w1 (Z.to_nat 900) media_url 1 1 st0). lia.
Defined.

Lemma selects_first_greatest_bandwidth_witness :
  0 < 5
  /\ m3u8_load w1 master_url = inr master1
  /\ is_variant master1 = true
  /\ playlists master1 = low :: [high; high_again]
  /\ exists pre sel post,
       playlists master1 = (pre ++ sel :: post)%list
       /\ Forall (fun x => bandwidth_of x < bandwidth_of sel) pre
       /\ Forall (fun x => bandwidth_of x <= bandwidth_of sel) post
       /\ _extract_segment_urls w1 master_url 5 0 st0
          = _extract_segment_urls w1 (urljoin w1 (base_of master_url) (pl_uri sel))
              5 (0 + 1) (logged st0 (EvLoad master_url true))
       /\ (0 + 1 < 5 ->
           exists rest,
             trace (_extract_segment_urls w1 master_url 5 0 st0).2
             = (trace st0 ++
                EvLoad master_url true
                :: EvLoad (urljoin w1 (base_of master_url) (pl_uri sel))
                     (match m3u8_load w1 (urljoin w1 (base_of master_url) (pl_uri sel))
                      with
                      | inr _ => true
                      | inl _ => false
                      end)
                :: rest)%list)
       /\ (0 + 1 < 5 ->
           forall q,
             m3u8_load w1 (urljoin w1 (base_of master_url) (pl_uri sel)) = inr q ->
             is_variant q = false ->
             _extract_segment_urls w1 master_url 5 0 st0
             = (Return (map (resolve_segment w1
                               (base_of (urljoin w1 (base_of master_url) (pl_uri sel))))
                          (segments q)),
                {| fs := fs st0;
                   trace := (trace st0 ++
                             [ EvLoad master_url true;
                               EvLoad (urljoin w1 (base_of master_url) (pl_uri sel))
                                 true ])%list |})).
Proof.
  do 4 (split; [reflexivity|]).
  apply (selects_first_greatest_bandwidth w1 master_url 5 0 st0 master1 low
           [high; high_again]); reflexivity.
Defined.

Lemma media_playlist_segment_urls_witness :
  0 < 5
  /\ m3u8_load w1 media_url = inr media1
  /\ is_variant media1 = false
  /\ exists urls : list string,
       _extract_segment_urls w1 media_url 5 0 st0
       = (Return urls, logged st0 (EvLoad media_url true))
       /\ length urls = length (segments media1)
       /\ forall (i : nat) (s : Segment),
            segments media1 !! i = Some s ->
            urls !! i = Some (if is_url w1 (seg_uri s) then seg_uri s
                              else urijoin w1 (base_of media_url) (seg_uri s)).
Proof.
  do 3 (split; [reflexivity|]).
  apply (media_playlist_segment_urls w1 media_url 5 0 st0 media1); reflexivity.
Defined.

Lemma base_is_url_through_last_slash_witness :
  contains_slash "index.m3u8" = false
  /\ 0 < 5
  /\ m3u8_load w1 ("http://h/v/high" ++ "/" ++ "index.m3u8") = inr media1
  /\ base_of ("http://h/v/high" ++ "/" ++ "index.m3u8") = "http://h/v/high" ++ "/".
Proof.
  do 3 (split; [reflexivity|]).
  apply (base_is_url_through_last_slash w1 "http://h/v/high" "index.m3u8" 5 0 st0 media1);
    reflexivity.
Defined.

(** ** The download map: destinations and their order *)

Lemma string_app_assoc (a b c : string) : (a ++ b) ++ c = a ++ b ++ c.
Proof.
  induction a as [|x a IH]; [reflexivity|].
  change (String x ((a ++ b) ++ c) = String x (a ++ b ++ c)).
  rewrite IH. reflexivity.
Qed.

Lemma ascii_compare_refl (c : ascii) : Ascii.compare c c = Eq.
Proof. unfold Ascii.compare. apply N.compare_refl. Qed.

Lemma string_compare_refl (s : string) : String.compare s s = Eq.
Proof.
  induction s as [|c s IH]; simpl; [reflexivity|].
  rewrite ascii_compare_refl. exact IH.
Qed.

Lemma string_compare_lt_trans (a b c : string) :
  String.compare a b = Lt -> String.compare b c = Lt -> String.compare a c = Lt.
Proof.
  revert b c. induction a as [|x a IH]; intros [|y b] [|z c]; simpl;
    try discriminate; try reflexivity.
  unfold Ascii.compare.
  destruct (N.compare_spec (N_of_ascii x) (N_of_ascii y)) as [Hxy|Hxy|Hxy];
    destruct (N.compare_spec (N_of_ascii y) (N_of_ascii z)) as [Hyz|Hyz|Hyz];
    destruct (N.compare_spec (N_of_ascii x) (N_of_ascii z)) as [Hxz|Hxz|Hxz];
    try discriminate; try lia; try reflexivity.
  apply IH.
Qed.

Lemma str_lt_trans (a b c : string) : str_lt a b -> str_lt b c -> str_lt a c.
Proof.
  unfold str_lt, String.ltb. intros Hab Hbc.
  destruct (String.compare a b) eqn:Eab; try discriminate.
  destruct (String.compare b c) eqn:Ebc; try discriminate.
  rewrite (string_compare_lt_trans _ _ _ Eab Ebc). reflexivity.
Qed.

Lemma str_lt_irrefl (a : string) : ~ str_lt a a.
Proof. unfold str_lt, String.ltb. rewrite string_compare_refl. discriminate. Qed.

Lemma string_compare_app (p a b : string) :
  String.compare (p ++ a) (p ++ b) = String.compare a b.
Proof.
  induction p as [|c p IH]; [reflexivity|].
  change (match Ascii.compare c c with
          | Eq => String.compare (p ++ a) (p ++ b)
          | ne => ne
          end = String.compare a b).
  rewrite ascii_compare_refl. exact IH.
Qed.

Lemma increasing_sorted (l : list string) :
  increasing l = true -> StronglySorted str_lt l.
Proof.
  induction l as [|a l IH]; intros Hinc; [constructor|].
  destruct l as [|b l]; [repeat constructor|].
  simpl in Hinc. apply andb_true_iff in Hinc as [Hab Hl].
  specialize (IH Hl). constructor; [exact IH|].
  constructor; [exact Hab|].
  apply StronglySorted_inv in IH as [_ Hb].
  eapply Forall_impl; [exact Hb|].
  intros c Hbc. exact (str_lt_trans _ _ _ Hab Hbc).
Qed.

Lemma sorted_prefix (l1 l2 : list string) :
  StronglySorted str_lt (l1 ++ l2) -> StronglySorted str_lt l1.
Proof.
  induction l1 as [|a l1 IH]; simpl; intros H; [constructor|].
  apply StronglySorted_inv in H as [Hs Ha].
  constructor; [exact (IH Hs)|].
  apply Forall_app in Ha as [Ha _]. exact Ha.
Qed.

Lemma sorted_map_prefix (p : string) (l : list string) :
  StronglySorted str_lt l -> StronglySorted str_lt (map (String.append p) l).
Proof.
  induction 1 as [|a l Hs IH Ha]; simpl; constructor; [exact IH|].
  apply Forall_map. eapply Forall_impl; [exact Ha|].
  intros b Hab. unfold str_lt, String.ltb in *. simpl.
  rewrite string_compare_app. exact Hab.
Qed.

Lemma sorted_lookup_lt (l : list string) (i j : nat) (x y : string) :
  StronglySorted str_lt l -> l !! i = Some x -> l !! j = Some y -> (i < j)%nat ->
  str_lt x y.
Proof.
  intros Hs. revert i j. induction Hs as [|a l Hs IH Ha]; intros i j Hi Hj Hij.
  - rewrite lookup_nil in Hi. discriminate.
  - destruct j as [|j]; [lia|]. simpl in Hj.
    destruct i as [|i]; simpl in Hi.
    + injection Hi as <-. rewrite Forall_forall in Ha.
      apply Ha. eapply list_elem_of_lookup_2. exact Hj.
    + apply (IH i j Hi Hj). lia.
Qed.

Lemma sorted_NoDup (l : list string) : StronglySorted str_lt l -> NoDup l.
Proof.
  induction 1 as [|a l Hs IH Ha]; constructor; [|exact IH].
  intros Hin. rewrite Forall_forall in Ha.
  apply (str_lt_irrefl a), Ha, Hin.
Qed.

(** [os.path.join] on a segment name: the name is relative, so the
    directory is put in front of it. *)
Lemma segment_path_prefix (segments_dir : string) (idx : nat) :
  segment_path segments_dir idx = join_prefix segments_dir ++ segment_name idx.
Proof.
  unfold segment_path, Os.path_join, join_prefix.
  change (Os.starts_with_slash (segment_name idx)) with false. cbv iota.
  destruct (String.eqb segments_dir "" || Os.ends_with_slash segments_dir);
    [reflexivity|].
  rewrite string_app_assoc. reflexivity.
Qed.

Lemma segment_paths_prefix (segments_dir : string) (idxs : list nat) :
  map (segment_path segments_dir) idxs
  = map (String.append (join_prefix segments_dir)) (map segment_name idxs).
Proof.
  rewrite map_map. apply map_ext. intros idx. apply segment_path_prefix.
Qed.

(** The names of the first ten thousand segments, in the order of their
    indices, are in lexical order. *)
Lemma four_digit_names_increasing :
  increasing (map segment_name (seq 0 (Z.to_nat 10000))) = true.
Proof. vm_compute. reflexivity. Qed.

Lemma segment_paths_sorted (segments_dir : string) (n : nat) :
  (n <= Z.to_nat 10000)%nat ->
  StronglySorted str_lt (map (segment_path segments_dir) (seq 0 n)).
Proof.
  intros Hn. rewrite segment_paths_prefix. apply sorted_map_prefix.
  apply (sorted_prefix _ (map segment_name (seq n (Z.to_nat 10000 - n)))).
  rewrite <- map_app, <- seq_app.
  replace (n + (Z.to_nat 10000 - n))%nat with (Z.to_nat 10000) by lia.
  apply increasing_sorted, four_digit_names_increasing.
Qed.

(** A dict comprehension whose keys are all different keeps every pair,
    in the order of the iteration. *)
Lemma dict_set_fresh {V} (d : list (string * V)) (k : string) (v : V) :
  k ∉ map fst d -> dict_set d k v = (d ++ [(k, v)])%list.
Proof.
  induction d as [|[k' v'] d IH]; simpl; intros Hk; [reflexivity|].
  apply not_elem_of_cons in Hk as [Hne Hk].
  destruct (String.eqb_spec k' k) as [->|_]; [contradiction|].
  rewrite (IH Hk). reflexivity.
Qed.

Lemma fold_dict_set_distinct (key : nat -> string) (ius : list (nat * string))
    (d0 : list (string * string)) :
  NoDup (map fst d0 ++ map (fun iu => key iu.1) ius) ->
  fold_left (fun d '(idx, url) => dict_set d (key idx) url) ius d0
  = (d0 ++ map (fun iu => (key iu.1, iu.2)) ius)%list.
Proof.
  revert d0. induction ius as [|[i u] ius IH]; intros d0 Hnd; simpl.
  - rewrite app_nil_r. reflexivity.
  - simpl in Hnd.
    assert (Hfresh : key i ∉ map fst d0).
    { apply NoDup_app in Hnd as (_ & Hdisj & _).
      intros Hin. apply (Hdisj _ Hin). left. }
    rewrite (dict_set_fresh _ _ _ Hfresh), IH.
    + rewrite <- app_assoc. reflexivity.
    + rewrite map_app. simpl. rewrite <- app_assoc. exact Hnd.
Qed.

Lemma make_download_map_distinct (segments_dir : string) (segment_urls : list string) :
  NoDup (map (segment_path segments_dir) (seq 0 (length segment_urls))) ->
  make_download_map segments_dir segment_urls
  = combine (map (segment_path segments_dir) (seq 0 (length segment_urls))) segment_urls.
Proof.
  intros Hnd. unfold make_download_map, enumerate.
  fold (segment_path segments_dir).
  assert (Hlen : length (seq 0 (length segment_urls)) = length segment_urls)
    by apply length_seq.
  revert Hnd Hlen. generalize (seq 0 (length segment_urls)) as idxs.
  intros idxs Hnd Hlen.
  rewrite (fold_dict_set_distinct (segment_path segments_dir)).
  - simpl. clear Hnd. revert segment_urls Hlen.
    induction idxs as [|i idxs IH]; intros [|u urls] Hlen; simpl in *;
      try reflexivity; try discriminate.
    rewrite IH by congruence. reflexivity.
  - simpl. replace (map (fun iu : nat * string => segment_path segments_dir iu.1)
                      (combine idxs segment_urls))
      with (map (segment_path segments_dir) idxs); [exact Hnd|].
    clear Hnd. revert segment_urls Hlen.
    induction idxs as [|i idxs IH]; intros [|u urls] Hlen; simpl in *;
      try reflexivity; try discriminate.
    rewrite <- IH by congruence. reflexivity.
Qed.

Lemma dict_keys_combine (ks : list string) (vs : list string) :
  length ks = length vs -> dict_keys (combine ks vs) = ks.
Proof.
  unfold dict_keys.
  revert vs. induction ks as [|k ks IH]; intros [|v vs] Hlen; simpl in *;
    try reflexivity; try discriminate.
  rewrite IH by congruence. reflexivity.
Qed.

(** C2 (as the code has it).  Up to ten thousand segments, the job at
    position [i] has the path built from [i] and the URL at position [i],
    and the paths are in strictly increasing lexical order: sorting them
    gives back the order of the input. *)
Theorem download_map_sorted_up_to_10000 (segments_dir : string)
    (segment_urls : list string) :
  Z.of_nat (length segment_urls) <= 10000 ->
  make_download_map segments_dir segment_urls
  = combine (map (segment_path segments_dir) (seq 0 (length segment_urls))) segment_urls
  /\ StronglySorted str_lt (dict_keys (make_download_map segments_dir segment_urls)).
Proof.
  intros Hlen.
  assert (Hsorted : StronglySorted str_lt
            (map (segment_path segments_dir) (seq 0 (length segment_urls))))
    by (apply segment_paths_sorted; lia).
  assert (Heq := make_download_map_distinct segments_dir segment_urls
                   (sorted_NoDup _ Hsorted)).
  split; [exact Heq|].
  rewrite Heq, dict_keys_combine; [exact Hsorted|].
  rewrite length_map, length_seq. reflexivity.
Qed.


Lemma name_10000_is_new :
  forallb (fun s => negb (String.eqb s "segment_10000.ts"))
    (map segment_name (seq 0 (Z.to_nat 10000))) = true.
Proof. vm_compute. reflexivity. Qed.

Lemma segment_names_10001_NoDup :
  NoDup (map segment_name (seq 0 (Z.to_nat 10001))).
Proof.
  replace (Z.to_nat 10001) with (Z.to_nat 10000 + 1)%nat by lia.
  rewrite seq_app, map_app. apply NoDup_app. split; [|split].
  - apply sorted_NoDup, increasing_sorted, four_digit_names_increasing.
  - intros s Hs Hlast. apply list_elem_of_singleton in Hlast.
    pose proof name_10000_is_new as Hnew.
    rewrite forallb_forall in Hnew.
    apply list_elem_of_In, Hnew in Hs.
    apply negb_true_iff, String.eqb_neq in Hs. apply Hs.
    rewrite Hlast. vm_compute. reflexivity.
  - apply NoDup_singleton.
Qed.

(** With ten thousand and one URLs the keys of the download map are still
    the paths of the indices, in the order of the indices. *)
Lemma download_map_keys_10001 (segments_dir : string) (segment_urls : list string)
    (i : nat) :
  length segment_urls = Z.to_nat 10001 ->
  (i < Z.to_nat 10001)%nat ->
  dict_keys (make_download_map segments_dir segment_urls) !! i
  = Some (segment_path segments_dir i).
Proof.
  intros Hlen Hi.
  rewrite make_download_map_distinct.
  - rewrite dict_keys_combine by (rewrite length_map, length_seq; reflexivity).
    rewrite list_lookup_fmap, lookup_seq_lt by lia. reflexivity.
  - rewrite Hlen, segment_paths_prefix. apply (NoDup_fmap_2 _).
    exact segment_names_10001_NoDup.
Qed.

Lemma many_urls_length : length Examples.many_urls = Z.to_nat 10001.
Proof. apply repeat_length. Qed.

(** C2, as stated, fails: of ten thousand and one jobs, the one at
    position 10000 has a destination that sorts before the destination of
    the one at position 1001, so the destinations are not in lexical
    order. *)
Lemma download_map_order_counterexample :
  dict_keys (make_download_map "/tmp/ws/ts_segments" Examples.many_urls) !! Z.to_nat 1001
  = Some "/tmp/ws/ts_segments/segment_1001.ts"
  /\ dict_keys (make_download_map "/tmp/ws/ts_segments" Examples.many_urls) !! Z.to_nat 10000
     = Some "/tmp/ws/ts_segments/segment_10000.ts"
  /\ str_lt "/tmp/ws/ts_segments/segment_10000.ts" "/tmp/ws/ts_segments/segment_1001.ts"
  /\ ~ StronglySorted str_lt
         (dict_keys (make_download_map "/tmp/ws/ts_segments" Examples.many_urls)).
Proof.
  assert (Hp1 : segment_path "/tmp/ws/ts_segments" (Z.to_nat 1001)
                = "/tmp/ws/ts_segments/segment_1001.ts") by (vm_compute; reflexivity).
  assert (Hp2 : segment_path "/tmp/ws/ts_segments" (Z.to_nat 10000)
                = "/tmp/ws/ts_segments/segment_10000.ts") by (vm_compute; reflexivity).
  assert (Hlt : str_lt "/tmp/ws/ts_segments/segment_10000.ts"
                  "/tmp/ws/ts_segments/segment_1001.ts") by (vm_compute; reflexivity).
  pose proof (download_map_keys_10001 "/tmp/ws/ts_segments" Examples.many_urls
                (Z.to_nat 1001) many_urls_length ltac:(lia)) as H1.
  pose proof (download_map_keys_10001 "/tmp/ws/ts_segments" Examples.many_urls
                (Z.to_nat 10000) many_urls_length ltac:(lia)) as H2.
  rewrite Hp1 in H1. rewrite Hp2 in H2.
  split; [exact H1|]. split; [exact H2|]. split; [exact Hlt|].
  generalize dependent (dict_keys (make_download_map "/tmp/ws/ts_segments"
                                     Examples.many_urls)).
  intros keys H1 H2 Hsorted.
  assert (Hlt' : str_lt "/tmp/ws/ts_segments/segment_1001.ts"
                   "/tmp/ws/ts_segments/segment_10000.ts").
  { refine (sorted_lookup_lt keys (Z.to_nat 1001) (Z.to_nat 10000)
              _ _ Hsorted H1 H2 _). lia. }
  exact (str_lt_irrefl _ (str_lt_trans _ _ _ Hlt' Hlt)).
Qed.

Lemma download_map_sorted_up_to_10000_witness :
  Z.of_nat (length ["http://h/a.ts"; "http://h/b.ts"; "http://h/a.ts"]) <= 10000
  /\ make_download_map "/tmp/ws/ts_segments" ["http://h/a.ts"; "http://h/b.ts"; "http://h/a.ts"]
     = [("/tmp/ws/ts_segments/segment_0000.ts", "http://h/a.ts");
        ("/tmp/ws/ts_segments/segment_0001.ts", "http://h/b.ts");
        ("/tmp/ws/ts_segments/segment_0002.ts", "http://h/a.ts")].
Proof.
  split; [vm_compute; discriminate|].
  apply (download_map_sorted_up_to_10000 "/tmp/ws/ts_segments"
           ["http://h/a.ts"; "http://h/b.ts"; "http://h/a.ts"]).
  vm_compute. discriminate.
Defined.

(** ** The manifest of the merge *)

Lemma try_except_ret_handler {S A} (m : M S A) (v : A) (s : S) (e : exn) :
  (try_except m (fun _ => ret v) s).1 = Raise e -> is_Exception e = false.
Proof.
  unfold try_except, ret. destruct (m s) as [[a|e'] s']; simpl; [discriminate|].
  destruct (is_Exception e') eqn:He; simpl; [discriminate|].
  intros [= <-]. exact He.
Qed.

(** The [finally] clause either leaves no manifest behind or finds a
    directory in its place, which [os.remove] refuses. *)
Lemma remove_file_list_post (p : string) (st : State) :
  ((remove_file_list p st).1 = Return tt
   /\ Os.path_exists p (fs (remove_file_list p st).2) = false
   /\ trace (remove_file_list p st).2 = trace st)
  \/ (remove_file_list p st = (Raise IsADirectoryError, st)
      /\ Os.path_isdir p (fs st) = true).
Proof.
  unfold remove_file_list, bind, os_path_exists, on_fs, Os.remove, Os.path_exists,
    Os.path_isdir, ret.
  destruct (fs st !! Os.fs_key p) as [[c|]|] eqn:Hp; simpl.
  - left. rewrite Hp. simpl. rewrite lookup_delete_eq. auto.
  - right. rewrite Hp. destruct st. auto.
  - left. rewrite Hp. auto.
Qed.

Section MergeClaims.
Context (w : World).

(** C5.  Whatever the segment files and whatever the two processes do,
    when [_merge_and_convert_segments] returns there is nothing at the path
    of the manifest.  It returns unless a process raised something that is
    not an [Exception], which passes through once the manifest is removed,
    or unless a directory sits at the path of the manifest, which
    [os.remove] refuses. *)
Theorem manifest_absent_after_merge (segment_files : list string)
    (intermediate_ts_path final_output_path : string) (st : State)
    (r : Outcome bool) (st' : State) :
  _merge_and_convert_segments w segment_files intermediate_ts_path final_output_path st
  = (r, st') ->
  (forall b, r = Return b ->
     Os.path_exists (file_list_path_of intermediate_ts_path) (fs st') = false)
  /\ (forall e, r = Raise e ->
        (e = IsADirectoryError
         /\ Os.path_isdir (file_list_path_of intermediate_ts_path) (fs st') = true)
        \/ (is_Exception e = false
            /\ Os.path_exists (file_list_path_of intermediate_ts_path) (fs st') = false)).
Proof.
  unfold _merge_and_convert_segments, try_finally, file_list_path_of.
  set (p := intermediate_ts_path ++ ".txt").
  set (body := try_except _ _).
  pose proof (try_except_ret_handler
                (merge_and_convert_body w segment_files p intermediate_ts_path
                   final_output_path) false st) as Hbody.
  fold body in Hbody.
  destruct (body st) as [rb st1]. simpl in Hbody.
  destruct (remove_file_list_post p st1) as [(Hr & Habsent & _)|(Hr & Hdir)].
  - destruct (remove_file_list p st1) as [[[]|e1] st2]; simpl in *; [|discriminate].
    intros [= <- <-]. split.
    + intros b _. exact Habsent.
    + intros e ->. right. split; [apply Hbody; reflexivity|exact Habsent].
  - rewrite Hr. intros [= <- <-]. split.
    + intros b Hb. discriminate.
    + intros e [= <-]. left. split; [reflexivity|exact Hdir].
Qed.

End MergeClaims.

Import Examples.

Lemma manifest_absent_after_merge_witness :
  Os.path_exists (file_list_path_of "/tmp/ws/merged_video.ts")
    (fs (_merge_and_convert_segments w1 ["/tmp/ws/ts_segments/segment_0000.ts"]
           "/tmp/ws/merged_video.ts" "out/video.mp4" st_ws).2) = false.
Proof.
  destruct (_merge_and_convert_segments w1 ["/tmp/ws/ts_segments/segment_0000.ts"]
              "/tmp/ws/merged_video.ts" "out/video.mp4" st_ws) as [r st'] eqn:Hrun.
  destruct (manifest_absent_after_merge w1 _ _ _ _ _ _ Hrun) as [Hret _].
  apply (Hret true).
  vm_compute in Hrun. injection Hrun as <- _. reflexivity.
Defined.

(** ** Paths and the file system *)

#[local] Arguments String.append !_ _ / : simpl nomatch.

Lemma rstrip_slash_app_slash (t : string) :
  Os.rstrip_slash (t ++ "/") = Os.rstrip_slash t.
Proof.
  induction t as [|c t IH]; [reflexivity|].
  simpl. rewrite IH. reflexivity.
Qed.

Lemma fs_key_app_slash (t : string) : t <> "" -> Os.fs_key (t ++ "/") = Os.fs_key t.
Proof.
  intros Ht. unfold Os.fs_key. rewrite rstrip_slash_app_slash.
  destruct (String.eqb (Os.rstrip_slash t) ""); [|reflexivity].
  destruct t as [|c t]; [contradiction|]. reflexivity.
Qed.

Lemma fs_key_nonempty (t : string) : t <> "" -> Os.fs_key t <> "".
Proof.
  intros Ht. unfold Os.fs_key.
  destruct (String.eqb_spec (Os.rstrip_slash t) "") as [_|Hne]; [|exact Hne].
  destruct (String.eqb_spec t ""); [contradiction|discriminate].
Qed.

Lemma prefixes_at_slash_whole (pre s : string) :
  (pre ++ s) ∈ Os.prefixes_at_slash pre s.
Proof.
  revert pre. induction s as [|c s IH]; intros pre; simpl.
  - replace (pre ++ "") with pre; [left|].
    clear. induction pre as [|x pre IH]; simpl; [reflexivity|]. rewrite <- IH. reflexivity.
  - apply elem_of_app. right.
    replace (pre ++ String c s) with ((pre ++ String c "") ++ s); [apply IH|].
    rewrite string_app_assoc. reflexivity.
Qed.

Lemma prefixes_at_slash_mem (pre a b : string) :
  (pre ++ a ++ "/") ∈ Os.prefixes_at_slash pre (a ++ "/" ++ b).
Proof.
  revert pre. induction a as [|c a IH]; intros pre; simpl.
  - left.
  - apply elem_of_app. right.
    replace (pre ++ String c (a ++ "/")) with ((pre ++ String c "") ++ a ++ "/");
      [apply IH|].
    rewrite string_app_assoc. reflexivity.
Qed.

Lemma ends_with_slash_decomp (t : string) :
  Os.ends_with_slash t = true -> exists a, t = a ++ "/".
Proof.
  induction t as [|c t IH]; [discriminate|].
  destruct t as [|c' t'].
  - simpl. intros Hc. apply Ascii.eqb_eq in Hc. subst c. exists "". reflexivity.
  - intros H. destruct (IH H) as [a Ha]. exists (String c a).
    simpl. rewrite <- Ha. reflexivity.
Qed.

(** The working directory is among the directories that
    [os.makedirs(os.path.join(t, name))] makes. *)
Lemma dir_chain_join_parent (t name : string) :
  t <> "" -> Os.starts_with_slash name = false ->
  Os.fs_key t ∈ Os.dir_chain (Os.path_join t name).
Proof.
  intros Ht Hname. unfold Os.dir_chain, Os.path_join. rewrite Hname.
  apply list_elem_of_filter. split; [apply fs_key_nonempty, Ht|].
  destruct (String.eqb_spec t "") as [|_]; [contradiction|]. simpl.
  destruct (Os.ends_with_slash t) eqn:Hend.
  - destruct (ends_with_slash_decomp t Hend) as [a ->].
    apply list_elem_of_fmap. exists (a ++ "/"). split; [reflexivity|].
    rewrite string_app_assoc.
    apply (prefixes_at_slash_mem "" a name).
  - rewrite <- (fs_key_app_slash t Ht).
    apply list_elem_of_fmap. exists (t ++ "/"). split; [reflexivity|].
    apply (prefixes_at_slash_mem "" t name).
Qed.

Lemma dir_chain_self (p : string) : p <> "" -> Os.fs_key p ∈ Os.dir_chain p.
Proof.
  intros Hp. unfold Os.dir_chain.
  apply list_elem_of_filter. split; [apply fs_key_nonempty, Hp|].
  apply list_elem_of_fmap. exists p. split; [reflexivity|].
  apply (prefixes_at_slash_whole "" p).
Qed.

Lemma mkdir_exist_ok_keeps (last : bool) (d : string) (fs : FS) (k : string) :
  fs !! k = Some Dir -> (Os.mkdir_exist_ok last d fs).2 !! k = Some Dir.
Proof.
  intros Hk. unfold Os.mkdir_exist_ok.
  destruct (fs !! d) as [[c|]|] eqn:Hd; simpl; try exact Hk.
  rewrite lookup_insert_ne; [exact Hk|]. intros ->. congruence.
Qed.

Lemma mkdir_chain_keeps (ds : list string) (fs : FS) (k : string) :
  fs !! k = Some Dir -> (Os.mkdir_chain ds fs).2 !! k = Some Dir.
Proof.
  revert fs. induction ds as [|d ds IH]; intros fs Hk; simpl; [exact Hk|].
  pose proof (mkdir_exist_ok_keeps (match ds with [] => true | _ => false end) d fs k Hk)
    as Hstep.
  destruct (Os.mkdir_exist_ok _ d fs) as [[[]|e] fs1]; simpl in *.
  - apply IH. exact Hstep.
  - exact Hstep.
Qed.

Lemma mkdir_chain_ok (ds : list string) (fs fs' : FS) :
  Os.mkdir_chain ds fs = (Return tt, fs') ->
  forall d, d ∈ ds -> fs' !! d = Some Dir.
Proof.
  revert fs. induction ds as [|d0 ds IH]; intros fs Hrun d Hd.
  - apply elem_of_nil in Hd. contradiction.
  - simpl in Hrun.
    destruct (Os.mkdir_exist_ok _ d0 fs) as [[[]|e] fs1] eqn:Hstep; [|discriminate].
    apply elem_of_cons in Hd as [->|Hd]; [|exact (IH fs1 Hrun d Hd)].
    assert (Hd0 : fs1 !! d0 = Some Dir).
    { unfold Os.mkdir_exist_ok in Hstep.
      destruct (fs !! d0) as [[c|]|] eqn:Hd0; try discriminate.
      - injection Hstep as <-. exact Hd0.
      - injection Hstep as <-. apply lookup_insert_eq. }
    pose proof (mkdir_chain_keeps ds fs1 d0 Hd0) as Hkeep.
    rewrite Hrun in Hkeep. exact Hkeep.
Qed.

Lemma makedirs_ok (p : string) (fs fs' : FS) :
  Os.makedirs p fs = (Return tt, fs') ->
  forall d, d ∈ Os.dir_chain p -> fs' !! d = Some Dir.
Proof. apply mkdir_chain_ok. Qed.

Lemma truthy_str_nonempty (v : option string) :
  truthy_str v = true -> default "" v <> "".
Proof.
  destruct v as [s|]; simpl; [|discriminate].
  intros H. apply negb_true_iff, String.eqb_neq in H. exact H.
Qed.

Lemma makedirs_keeps (p : string) (fs : FS) (k : string) :
  fs !! k = Some Dir -> (Os.makedirs p fs).2 !! k = Some Dir.
Proof. apply mkdir_chain_keeps. Qed.





(** ** Traces and states of the stages *)

Lemma aborts_after_failure_app (a b : list Event) :
  aborts_after_failure a = true ->
  aborts_after_failure b = true ->
  (existsb failed a = true -> forallb (fun e => negb (is_forward e)) b = true) ->
  aborts_after_failure (a ++ b) = true.
Proof.
  induction a as [|ev a IH]; simpl; intros Ha Hb Hab; [exact Hb|].
  apply andb_true_iff in Ha as [Hev Ha].
  apply andb_true_iff. split.
  - destruct (failed ev); [|reflexivity].
    rewrite forallb_app, Hev. simpl. apply Hab. reflexivity.
  - apply IH; [exact Ha|exact Hb|].
    intros Hf. apply Hab. rewrite Hf. apply orb_true_r.
Qed.

Lemma fetch_then_manifest_loads (w : World) (a b : list Event) :
  forallb is_load a = true ->
  fetch_then_manifest w b -> fetch_then_manifest w (a ++ b).
Proof.
  induction a as [|ev a IH]; simpl; intros Ha Hb; [exact Hb|].
  apply andb_true_iff in Ha as [Hev Ha].
  destruct ev; try discriminate. apply IH; assumption.
Qed.

Lemma fetch_then_manifest_runs (w : World) (a b : list Event) :
  forallb is_run a = true ->
  fetch_then_manifest w b -> fetch_then_manifest w (a ++ b).
Proof.
  induction a as [|ev a IH]; simpl; intros Ha Hb; [exact Hb|].
  apply andb_true_iff in Ha as [Hev Ha].
  destruct ev; try discriminate. apply IH; assumption.
Qed.

Section StageFacts.
Context (w : World).

(** The resolver reads no state and touches no file; it only adds its
    loads to the trace, and a load that fails is the last one. *)
Lemma extract_segment_urls_effect (m3u8_url : string) (max_depth current_depth : Z)
    (st : State) :
  fs (_extract_segment_urls w m3u8_url max_depth current_depth st).2 = fs st
  /\ exists loads,
       trace (_extract_segment_urls w m3u8_url max_depth current_depth st).2
       = (trace st ++ loads)%list
       /\ forallb is_load loads = true
       /\ aborts_after_failure loads = true
       /\ (existsb failed loads = true ->
           is_Return (_extract_segment_urls w m3u8_url max_depth current_depth st).1
           = false).
Proof.
  remember (Z.to_nat (max_depth - current_depth)) as n eqn:Hn.
  revert m3u8_url current_depth st Hn.
  induction n as [|n IH]; intros m3u8_url current_depth st Hn;
    rewrite extract_segment_urls_unfold.
  - destruct (Z.geb_spec current_depth max_depth); [|lia]. simpl.
    split; [reflexivity|]. exists []. rewrite app_nil_r. repeat split.
  - destruct (Z.geb_spec current_depth max_depth); [lia|].
    destruct (m3u8_load w m3u8_url) as [why|p]; simpl.
    + split; [reflexivity|]. exists [EvLoad m3u8_url false]. repeat split.
    + destruct (is_variant p); simpl.
      * destruct (Py.max bandwidth_of (playlists p)) as [sel|e].
        -- destruct (IH (urljoin w (base_of m3u8_url) (pl_uri sel)) (current_depth + 1)
                       (logged st (EvLoad m3u8_url true)) ltac:(lia))
             as (Hfs & loads & Htr & Hl & Ha & Hf).
           split; [exact Hfs|].
           exists (EvLoad m3u8_url true :: loads). repeat split.
           ++ rewrite Htr. simpl. rewrite <- app_assoc. reflexivity.
           ++ exact Hl.
           ++ exact Ha.
           ++ exact Hf.
        -- simpl. split; [reflexivity|]. exists [EvLoad m3u8_url true].
           repeat split.
      * split; [reflexivity|]. exists [EvLoad m3u8_url true]. repeat split.
        simpl. discriminate.
Qed.

(** The outcome of the resolver depends on the playlists only. *)
Lemma extract_segment_urls_outcome (m3u8_url : string) (max_depth current_depth : Z)
    (st st2 : State) :
  (_extract_segment_urls w m3u8_url max_depth current_depth st).1
  = (_extract_segment_urls w m3u8_url max_depth current_depth st2).1.
Proof.
  remember (Z.to_nat (max_depth - current_depth)) as n eqn:Hn.
  revert m3u8_url current_depth st st2 Hn.
  induction n as [|n IH]; intros m3u8_url current_depth st st2 Hn;
    rewrite !extract_segment_urls_unfold.
  - destruct (Z.geb_spec current_depth max_depth); [reflexivity|lia].
  - destruct (Z.geb_spec current_depth max_depth); [lia|].
    destruct (m3u8_load w m3u8_url) as [why|p]; [reflexivity|].
    destruct (is_variant p); [|reflexivity].
    destruct (Py.max bandwidth_of (playlists p)) as [sel|e]; [|reflexivity].
    apply IH. lia.
Qed.

(** The calls of the body of the merge: the manifest is written first,
    with every segment file in it; a process is run only if every call
    before it returned; [True] is returned only if all of them did. *)
Lemma merge_body_effect (segment_files : list string)
    (intermediate_ts_path final_output_path : string) (st : State) :
  exists ok evs,
    trace (try_except
             (merge_and_convert_body w segment_files
                (file_list_path_of intermediate_ts_path) intermediate_ts_path
                final_output_path)
             (fun _ => ret false) st).2
    = (trace st ++ EvWrite (file_list_path_of intermediate_ts_path)
                     (file_list_content w segment_files) ok :: evs)%list
    /\ forallb is_forward evs = true
    /\ forallb is_run evs = true
    /\ aborts_after_failure
         (EvWrite (file_list_path_of intermediate_ts_path)
            (file_list_content w segment_files) ok :: evs) = true
    /\ ((try_except
           (merge_and_convert_body w segment_files
              (file_list_path_of intermediate_ts_path) intermediate_ts_path
              final_output_path)
           (fun _ => ret false) st).1 = Return true ->
        existsb failed
          (EvWrite (file_list_path_of intermediate_ts_path)
             (file_list_content w segment_files) ok :: evs) = false).
Proof.
  set (p := file_list_path_of intermediate_ts_path).
  set (c := file_list_content w segment_files).
  unfold try_except, merge_and_convert_body, bind, run, call_fs, ret.
  fold c.
  destruct (Os.write_file p c (fs st)) as [[[]|e1] fs1]; cbn [fs trace is_Return].
  - destruct (subprocess_run w (merge_cmd p intermediate_ts_path) fs1)
      as [[[]|e2] fs2]; cbn [fs trace is_Return].
    + destruct (subprocess_run w (convert_cmd intermediate_ts_path final_output_path) fs2)
        as [[[]|e3] fs3]; cbn [fs trace is_Return].
      * exists true, [EvRun (merge_cmd p intermediate_ts_path) true;
                      EvRun (convert_cmd intermediate_ts_path final_output_path) true].
        rewrite <- !app_assoc. repeat split.
      * exists true, [EvRun (merge_cmd p intermediate_ts_path) true;
                      EvRun (convert_cmd intermediate_ts_path final_output_path) false].
        destruct (is_Exception e3); cbn [fst snd trace]; rewrite <- !app_assoc;
          repeat split; discriminate.
    + exists true, [EvRun (merge_cmd p intermediate_ts_path) false].
      destruct (is_Exception e2); cbn [fst snd trace]; rewrite <- !app_assoc;
        repeat split; discriminate.
  - exists false, [].
    destruct (is_Exception e1); cbn [fst snd trace]; repeat split; discriminate.
Qed.

(** The same holds of the whole function: its [finally] clause adds no
    call, and can only turn a return into an exception. *)
Lemma merge_and_convert_effect (segment_files : list string)
    (intermediate_ts_path final_output_path : string) (st : State) :
  exists ok evs,
    trace (_merge_and_convert_segments w segment_files intermediate_ts_path
             final_output_path st).2
    = (trace st ++ EvWrite (file_list_path_of intermediate_ts_path)
                     (file_list_content w segment_files) ok :: evs)%list
    /\ forallb is_forward evs = true
    /\ forallb is_run evs = true
    /\ aborts_after_failure
         (EvWrite (file_list_path_of intermediate_ts_path)
            (file_list_content w segment_files) ok :: evs) = true
    /\ ((_merge_and_convert_segments w segment_files intermediate_ts_path
           final_output_path st).1 = Return true ->
        existsb failed
          (EvWrite (file_list_path_of intermediate_ts_path)
             (file_list_content w segment_files) ok :: evs) = false).
Proof.
  destruct (merge_body_effect segment_files intermediate_ts_path final_output_path st)
    as (ok & evs & Htr & Hfw & Hfm & Hab & Hok).
  exists ok, evs.
  unfold _merge_and_convert_segments, try_finally.
  fold (file_list_path_of intermediate_ts_path).
  destruct (try_except _ _ st) as [rb st1]. cbn [fst snd] in Htr, Hok.
  destruct (remove_file_list_post (file_list_path_of intermediate_ts_path) st1)
    as [(Hr & _ & Htr1)|(Hr & _)].
  - destruct (remove_file_list _ st1) as [[[]|e] st2]; cbn [fst snd] in *;
      [|discriminate].
    rewrite Htr1. repeat split; assumption.
  - rewrite Hr. cbn [fst snd]. repeat split; try assumption. discriminate.
Qed.

End StageFacts.

(** ** The stages of [download_video] *)

Section DownloadFacts.
Context (w : World).

Lemma prepare_workspace_effect (fr : Frame) :
  trace (state (prepare_workspace w fr).2) = trace (state fr)
  /\ cleanup_temp (prepare_workspace w fr).2
     = Some (effective_cleanup w (cleanup_temp fr))
  /\ temp_directory (prepare_workspace w fr).2
     = Some (effective_temp_directory w (temp_directory fr) (fs (state fr)))
  /\ (forall k, fs (state fr) !! k = Some Dir ->
                fs (state (prepare_workspace w fr).2) !! k = Some Dir)
  /\ (forall segments_dir, (prepare_workspace w fr).1 = Return segments_dir ->
        segments_dir
        = Os.path_join (effective_temp_directory w (temp_directory fr) (fs (state fr)))
            "ts_segments"
        /\ Os.path_isdir (effective_temp_directory w (temp_directory fr) (fs (state fr)))
             (fs (state (prepare_workspace w fr).2)) = true).
Proof.
  destruct fr as [st cl tmp].
  unfold prepare_workspace, effective_cleanup, effective_temp_directory.
  unfold bind, get, set_cleanup_temp, set_temp_directory, modify, ret, in_frame,
    mkdtemp, on_fs.
  cbn [state cleanup_temp temp_directory fst snd].
  destruct (truthy_str tmp) eqn:Htmp; cbn [negb].
  - (* a directory was requested *)
    pose proof (truthy_str_nonempty tmp Htmp) as Hne.
    destruct cl as [b|]; cbn [state cleanup_temp temp_directory fst snd].
    all: pose proof (makedirs_keeps (default "" tmp) (fs st)) as Hk1.
    all: pose proof (makedirs_ok (default "" tmp) (fs st)) as Hok1.
    all: destruct (Os.makedirs (default "" tmp) (fs st)) as [[[]|e1] fs1];
      cbn [state cleanup_temp temp_directory fst snd fs trace] in *.
    all: try (pose proof (makedirs_keeps (Os.path_join (default "" tmp) "ts_segments") fs1)
                as Hk2;
              destruct (Os.makedirs (Os.path_join (default "" tmp) "ts_segments") fs1)
                as [[[]|e2] fs2];
              cbn [state cleanup_temp temp_directory fst snd fs trace] in * ).
    all: repeat split; try reflexivity.
    all: try (destruct tmp; [reflexivity|discriminate]).
    all: try (auto; fail).
    all: try match goal with H : Raise _ = Return _ |- _ => discriminate H end.
    all: try match goal with
             | H : Return _ = Return ?s |- ?s = _ => injection H as <-; reflexivity
             end.
    all: unfold Os.path_isdir;
      rewrite (Hk2 (Os.fs_key (default "" tmp)));
      [reflexivity|apply (Hok1 fs1 eq_refl), dir_chain_self, Hne].
  - destruct (truthy_str (temp_dir (get_config w))) eqn:Hcfg.
    + (* the configured directory *)
      pose proof (truthy_str_nonempty _ Hcfg) as Hne.
      assert (Hd : default "" (temp_dir (get_config w)) <> "" ->
                   temp_dir (get_config w)
                   = Some (default "" (temp_dir (get_config w)))).
      { destruct (temp_dir (get_config w)); [reflexivity|contradiction]. }
      specialize (Hd Hne).
      destruct cl as [b|]; cbn [state cleanup_temp temp_directory fst snd].
      all: pose proof (makedirs_keeps
                         (Os.path_join (default "" (temp_dir (get_config w)))
                            "ts_segments") (fs st)) as Hk2.
      all: pose proof (makedirs_ok
                         (Os.path_join (default "" (temp_dir (get_config w)))
                            "ts_segments") (fs st)) as Hok2.
      all: destruct (Os.makedirs
                       (Os.path_join (default "" (temp_dir (get_config w)))
                          "ts_segments") (fs st)) as [[[]|e2] fs2];
        cbn [state cleanup_temp temp_directory fst snd fs trace] in *.
      all: repeat split; try reflexivity; try exact Hd.
      all: try (auto; fail).
      all: try match goal with H : Raise _ = Return _ |- _ => discriminate H end.
      all: try match goal with
               | H : Return _ = Return ?s |- ?s = _ => injection H as <-; reflexivity
               end.
      all: unfold Os.path_isdir;
        rewrite (Hok2 fs2 eq_refl (Os.fs_key (default "" (temp_dir (get_config w)))));
        [reflexivity|apply dir_chain_join_parent; [exact Hne|reflexivity]].
    + (* a new directory *)
      destruct cl as [b|];
        cbn [state cleanup_temp temp_directory fst snd fs trace default from_option id].
      all: set (made := mkdtemp_name w "m3u8_download_" (fs st)).
      all: pose proof (makedirs_keeps (Os.path_join made "ts_segments")
                         (<[Os.fs_key made := Dir]> (fs st))) as Hk2.
      all: destruct (Os.makedirs (Os.path_join made "ts_segments")
                       (<[Os.fs_key made := Dir]> (fs st))) as [[[]|e2] fs2];
        cbn [state cleanup_temp temp_directory fst snd fs trace default] in *.
      all: repeat split; try reflexivity.
      all: try match goal with H : Raise _ = Return _ |- _ => discriminate H end.
      all: try match goal with
               | H : Return _ = Return ?s |- ?s = _ => injection H as <-; reflexivity
               end.
      all: try (intros k Hk; apply Hk2;
                destruct (decide (Os.fs_key made = k)) as [<-|Hne];
                [apply lookup_insert_eq
                |rewrite lookup_insert_ne by exact Hne; exact Hk]).
      all: unfold Os.path_isdir;
        rewrite (Hk2 (Os.fs_key made)); [reflexivity|apply lookup_insert_eq].
Qed.

End DownloadFacts.

Section RunStages.
Context (w : World).

Lemma in_frame_eq {A} (m : M State A) (fr : Frame) :
  in_frame m fr
  = ((m (state fr)).1,
     {| state := (m (state fr)).2; cleanup_temp := cleanup_temp fr;
        temp_directory := temp_directory fr |}).
Proof. unfold in_frame. destruct (m (state fr)). reflexivity. Qed.

Lemma loads_are_forward (loads : list Event) :
  forallb is_load loads = true -> forallb is_forward loads = true.
Proof.
  induction loads as [|ev l IH]; simpl; [reflexivity|].
  intros H. apply andb_true_iff in H as [Hev Hl]. rewrite (IH Hl).
  destruct ev; try discriminate. reflexivity.
Qed.

Lemma stages_shape_nil (m3u8_url : string) (tr0 : list Event) (e : exn) (fr' : Frame) :
  trace (state fr') = tr0 -> stages_shape w m3u8_url tr0 (Raise e) fr'.
Proof.
  intros Htr. exists []. rewrite app_nil_r. repeat split; auto.
Qed.

(** The forward stages leave the two parameters of the frame alone, and
    their calls follow one another as long as none raises. *)
Lemma run_stages_effect (m3u8_url output_path segments_dir : string) (fr : Frame) :
  cleanup_temp (run_stages w m3u8_url output_path segments_dir fr).2 = cleanup_temp fr
  /\ temp_directory (run_stages w m3u8_url output_path segments_dir fr).2
     = temp_directory fr
  /\ stages_shape w m3u8_url (trace (state fr))
       (run_stages w m3u8_url output_path segments_dir fr).1
       (run_stages w m3u8_url output_path segments_dir fr).2.
Proof.
  destruct fr as [st cl tmp].
  unfold run_stages, bind, get, ret, raise.
  cbn [state cleanup_temp temp_directory].
  (* the directory of the output *)
  assert (Hout : exists r1 st1,
            trace st1 = trace st /\
            (if negb (String.eqb (Os.path_dirname output_path) "")
             then in_frame (on_fs (Os.makedirs (Os.path_dirname output_path)))
             else fun s => (Return tt, s))
              {| state := st; cleanup_temp := cl; temp_directory := tmp |}
            = (r1, {| state := st1; cleanup_temp := cl; temp_directory := tmp |})).
  { destruct (negb (String.eqb (Os.path_dirname output_path) "")).
    - rewrite in_frame_eq. unfold on_fs. cbn [state cleanup_temp temp_directory].
      destruct (Os.makedirs (Os.path_dirname output_path) (fs st)) as [r1 fs1].
      exists r1, {| fs := fs1; trace := trace st |}. split; reflexivity.
    - exists (Return tt), st. split; reflexivity. }
  destruct Hout as (r1 & st1 & Htr1 & Hrun). rewrite Hrun. clear Hrun.
  destruct r1 as [[]|e1];
    [|cbn [fst snd cleanup_temp temp_directory]; repeat split;
      apply stages_shape_nil; exact Htr1].
  (* resolution *)
  rewrite in_frame_eq. cbn [state cleanup_temp temp_directory fst snd].
  destruct (extract_segment_urls_effect w m3u8_url 5 0 st1)
    as (Hfs2 & loads & Htr2 & Hloads & Hab2 & Hfail2).
  pose proof (fun st_any => extract_segment_urls_outcome w m3u8_url 5 0 st1 st_any)
    as Hindep.
  destruct (_extract_segment_urls w m3u8_url 5 0 st1) as [[urls|e] st2];
    cbn [fst snd cleanup_temp temp_directory state] in *.
  2:{ repeat split. exists loads. cbn [state]. rewrite Htr2, Htr1.
      repeat split; try assumption.
      - apply loads_are_forward, Hloads.
      - intros rest Hrest. apply fetch_then_manifest_loads; assumption. }
  assert (Hfw : forallb is_forward loads = true) by (apply loads_are_forward, Hloads).
  assert (Hnofail : existsb failed loads = false).
  { destruct (existsb failed loads); [|reflexivity]. discriminate (Hfail2 eq_refl). }
  assert (Hres : forall e st_any,
             (_extract_segment_urls w m3u8_url 5 0 st_any).1 = Raise e -> False).
  { intros e st_any He. rewrite <- Hindep in He. discriminate. }
  (* download *)
  rewrite in_frame_eq. unfold call_fs. cbn [state cleanup_temp temp_directory].
  set (download_map := make_download_map segments_dir urls).
  destruct (download_files w download_map (fs st2)) as [[[]|e] fs3];
    cbn [fst snd is_Return cleanup_temp temp_directory state].
  2:{ repeat split. exists (loads ++ [EvDownload download_map false])%list.
      cbn [state trace]. rewrite Htr2, Htr1, <- app_assoc.
      repeat split; try (exfalso; eapply Hres; eassumption).
      - rewrite forallb_app, Hfw. reflexivity.
      - apply aborts_after_failure_app;
          [exact Hab2|reflexivity|rewrite Hnofail; discriminate].
      - intros rest Hrest. rewrite <- app_assoc.
        apply fetch_then_manifest_loads; [exact Hloads|exact Hrest]. }
  (* merge and convert *)
  rewrite in_frame_eq. cbn [state cleanup_temp temp_directory].
  set (st3 := {| fs := fs3; trace := (trace st2 ++ [EvDownload download_map true])%list |}).
  set (merged := Os.path_join (default "" tmp) "merged_video.ts").
  destruct (merge_and_convert_effect w (dict_keys download_map) merged output_path st3)
    as (ok & evs & Htr4 & Hfw4 & Hfm4 & Hab4 & Hok4).
  assert (Hshape : exists forward,
            trace (_merge_and_convert_segments w (dict_keys download_map) merged
                     output_path st3).2 = (trace st ++ forward)%list
            /\ forallb is_forward forward = true
            /\ aborts_after_failure forward = true
            /\ (forall rest, fetch_then_manifest w rest ->
                             fetch_then_manifest w (forward ++ rest))
            /\ (existsb failed forward = true ->
                (_merge_and_convert_segments w (dict_keys download_map) merged
                   output_path st3).1 <> Return true)).
  { exists (loads ++ EvDownload download_map true
                  :: EvWrite (file_list_path_of merged)
                       (file_list_content w (dict_keys download_map)) ok :: evs)%list.
    assert (Htr3 : trace st3
                   = (trace st ++ loads ++ [EvDownload download_map true])%list).
    { unfold st3. cbn [trace]. rewrite Htr2, Htr1, <- app_assoc. reflexivity. }
    rewrite Htr4, Htr3, <- !app_assoc.
    repeat split.
    - rewrite forallb_app, Hfw. simpl. exact Hfw4.
    - apply aborts_after_failure_app; [exact Hab2| |rewrite Hnofail; discriminate].
      simpl. simpl in Hab4. exact Hab4.
    - intros rest Hrest. rewrite <- app_assoc.
      apply fetch_then_manifest_loads; [exact Hloads|]. simpl.
      split; [eauto|]. apply fetch_then_manifest_runs; [exact Hfm4|exact Hrest].
    - rewrite existsb_app, Hnofail. simpl. intros Hf Hret.
      pose proof (Hok4 Hret) as Hnone. simpl in Hnone.
      rewrite Hnone in Hf. discriminate. }
  destruct Hshape as (forward & Htr & Hfw' & Hab' & Hfm' & Hok').
  destruct (_merge_and_convert_segments w (dict_keys download_map) merged output_path st3)
    as [[success|e] st4]; cbn [fst snd] in *.
  - destruct success; cbn [negb fst snd state cleanup_temp temp_directory is_Return].
    + repeat split. exists forward. cbn [state].
      repeat split; try assumption; try (exfalso; eapply Hres; eassumption).
      intros Hf. destruct (Hok' Hf eq_refl).
    + repeat split. exists forward. cbn [state].
      repeat split; try assumption; try (exfalso; eapply Hres; eassumption).
  - repeat split. exists forward. cbn [state].
    repeat split; try assumption; try (exfalso; eapply Hres; eassumption).
Qed.

End RunStages.

(** ** The whole call *)

Lemma try_except_raise {S A} (m : M S A) (s : S) :
  try_except m (fun e => raise e) s = m s.
Proof.
  unfold try_except, raise.
  destruct (m s) as [[a|e] s']; [reflexivity|].
  destruct (is_Exception e); reflexivity.
Qed.

Section DownloadVideo.
Context (w : World).

(** [download_video] is its [try] block followed by its [finally]
    clause, whose exception, if any, replaces the outcome of the block. *)
Lemma download_video_eq (m3u8_url output_path : string) (tmp : option string)
    (cl : option bool) (st0 : State) :
  download_video w m3u8_url output_path tmp cl st0
  = (match (cleanup_workspace
              ((let! segments_dir := prepare_workspace w in
                run_stages w m3u8_url output_path segments_dir)
                 (entry_frame st0 tmp cl)).2).1 with
     | Return _ =>
         ((let! segments_dir := prepare_workspace w in
           run_stages w m3u8_url output_path segments_dir) (entry_frame st0 tmp cl)).1
     | Raise e => Raise e
     end,
     state (cleanup_workspace
              ((let! segments_dir := prepare_workspace w in
                run_stages w m3u8_url output_path segments_dir)
                 (entry_frame st0 tmp cl)).2).2).
Proof.
  unfold download_video, download_video_frame, try_finally, entry_frame.
  rewrite try_except_raise.
  destruct (bind _ _ _) as [rb fr1]. cbn [fst snd].
  destruct (cleanup_workspace fr1) as [[[]|e] fr2]; reflexivity.
Qed.

(** The [try] block: the two parameters are settled by the preparation,
    and the forward stages follow. *)
Lemma try_block_effect (m3u8_url output_path : string) (fr : Frame) :
  cleanup_temp ((let! segments_dir := prepare_workspace w in
                 run_stages w m3u8_url output_path segments_dir) fr).2
  = Some (effective_cleanup w (cleanup_temp fr))
  /\ temp_directory ((let! segments_dir := prepare_workspace w in
                      run_stages w m3u8_url output_path segments_dir) fr).2
     = Some (effective_temp_directory w (temp_directory fr) (fs (state fr)))
  /\ stages_shape w m3u8_url (trace (state fr))
       ((let! segments_dir := prepare_workspace w in
         run_stages w m3u8_url output_path segments_dir) fr).1
       ((let! segments_dir := prepare_workspace w in
         run_stages w m3u8_url output_path segments_dir) fr).2.
Proof.
  destruct (prepare_workspace_effect w fr) as (Htr & Hcl & Htmp & _ & _).
  unfold bind.
  destruct (prepare_workspace w fr) as [[segments_dir|e] fr1]; cbn [fst snd] in *.
  - destruct (run_stages_effect w m3u8_url output_path segments_dir fr1)
      as (Hcl2 & Htmp2 & Hshape).
    rewrite Hcl2, Htmp2, Hcl, Htmp, <- Htr. auto.
  - repeat split; [exact Hcl|exact Htmp|]. apply stages_shape_nil. exact Htr.
Qed.

(** The [finally] clause is entered on every path, and adds at most the
    removal of the working directory. *)
Lemma cleanup_workspace_trace (fr : Frame) :
  exists tail,
    trace (state (cleanup_workspace fr).2) = (trace (state fr) ++ EvFinally :: tail)%list
    /\ (tail = [] \/ exists dir, tail = [EvRmtree dir]).
Proof.
  destruct fr as [st cl tmp].
  unfold cleanup_workspace, bind, in_frame, log_event, get, raise, ret, os_path_exists,
    on_fs, modify.
  cbn [state cleanup_temp temp_directory fst snd fs trace].
  destruct (truthy_bool cl); [|exists []; auto].
  destruct tmp as [dir|]; [|exists []; auto].
  cbn [state cleanup_temp temp_directory fst snd fs trace].
  destruct (Os.path_exists dir (fs st)); [|exists []; auto].
  cbn [state cleanup_temp temp_directory fst snd fs trace].
  destruct (Os.rmtree dir (fs st)) as [r fs'].
  exists [EvRmtree dir]. cbn [state cleanup_temp temp_directory fst snd fs trace].
  rewrite <- app_assoc. eauto.
Qed.




End DownloadVideo.

(** ** The stages of a call, one by one *)

Section StagesExact.
Context (w : World).





End StagesExact.

Section PreparedCall.
Context (w : World).


End PreparedCall.

Section ForwardThenFinally.
Context (w : World).


End ForwardThenFinally.

Section PreparedMerge.
Context (w : World).



End PreparedMerge.

(** ** The claims about [download_video] *)

Section DownloadClaims.
Context (w : World).


(** C3, amended.  [download_video] looks at no destination file: in every
    call, the call that follows a fetch that returned is the writing of
    the manifest of the merge, which lists every destination of the
    download map, whatever the fetch left on the disk. *)
Theorem manifest_follows_fetch (m3u8_url output_path : string)
    (tmp : option string) (cl : option bool) (st0 : State) :
  exists new,
    trace (download_video w m3u8_url output_path tmp cl st0).2 = (trace st0 ++ new)%list
    /\ fetch_then_manifest w new.
Proof.
  rewrite download_video_eq.
  destruct (try_block_effect w m3u8_url output_path (entry_frame st0 tmp cl))
    as (_ & _ & forward & Htr & _ & _ & Hfm & _).
  destruct (bind _ _ (entry_frame st0 tmp cl)) as [rb fr1]. cbn [fst snd state] in *.
  destruct (cleanup_workspace_trace fr1) as (tail & Htr2 & Htail).
  exists (forward ++ EvFinally :: tail)%list. rewrite Htr2, Htr, <- app_assoc.
  split; [reflexivity|]. apply Hfm.
  destruct Htail as [->|[dir ->]]; simpl; exact I.
Qed.



End DownloadClaims.

(** ** The claims on concrete calls *)






(** C3, as stated, fails: the fetch reports completion and has written
    none of the three files; no file is looked for, the manifest is
    written and [ffmpeg] is run, and as it exits normally the call returns
    as a success. *)
Lemma fetch_without_files_counterexample :
  (download_video w_no_files master_url "out/video.mp4" (Some "/tmp/ws") (Some false)
     st_ws).1 = Return tt
  /\ dict_keys (make_download_map "/tmp/ws/ts_segments"
                  ["http://h/v/high/seg0.ts"; "http://h/v/high/seg1.ts";
                   "http://cdn/seg2.ts"]) = media1_files
  /\ forallb (fun path =>
                negb (Os.path_exists path
                        (fs (download_video w_no_files master_url "out/video.mp4"
                               (Some "/tmp/ws") (Some false) st_ws).2)))
       media1_files = true
  /\ trace (download_video w_no_files master_url "out/video.mp4" (Some "/tmp/ws")
              (Some false) st_ws).2
     = [ EvLoad master_url true; EvLoad media_url true;
         EvDownload (make_download_map "/tmp/ws/ts_segments"
                       ["http://h/v/high/seg0.ts"; "http://h/v/high/seg1.ts";
                        "http://cdn/seg2.ts"]) true;
         EvWrite "/tmp/ws/merged_video.ts.txt"
           (file_list_content w_no_files media1_files) true;
         EvRun (merge_cmd "/tmp/ws/merged_video.ts.txt" "/tmp/ws/merged_video.ts") true;
         EvRun (convert_cmd "/tmp/ws/merged_video.ts" "out/video.mp4") true;
         EvFinally ].
Proof. repeat split; vm_compute; reflexivity. Qed.





Import MoreExamples.


(** * Further properties *)

(** ** The resolver along a chain of playlists *)

Section ResolverChain.
Context (w : World).

(** X1.  The resolver reads playlists and nothing else: it leaves the files
    alone, and it loads at most [max_depth - current_depth] playlists,
    whatever they refer to. *)
Theorem resolver_loads_at_most_depth (m3u8_url : string) (max_depth current_depth : Z)
    (st : State) :
  fs (_extract_segment_urls w m3u8_url max_depth current_depth st).2 = fs st
  /\ exists loads,
       trace (_extract_segment_urls w m3u8_url max_depth current_depth st).2
       = (trace st ++ loads)%list
       /\ forallb is_load loads = true
       /\ Z.of_nat (length loads) <= Z.max 0 (max_depth - current_depth).
Proof.
  remember (Z.to_nat (max_depth - current_depth)) as n eqn:Hn.
  revert m3u8_url current_depth st Hn.
  induction n as [|n IH]; intros m3u8_url current_depth st Hn;
    rewrite extract_segment_urls_unfold.
  - destruct (Z.geb_spec current_depth max_depth); [|lia]. simpl.
    split; [reflexivity|]. exists []. rewrite app_nil_r.
    split; [reflexivity|]. split; [reflexivity|]. simpl. lia.
  - destruct (Z.geb_spec current_depth max_depth); [lia|].
    assert (Hone : forall ok,
               fs (logged st (EvLoad m3u8_url ok)) = fs st
               /\ exists loads,
                    trace (logged st (EvLoad m3u8_url ok)) = (trace st ++ loads)%list
                    /\ forallb is_load loads = true
                    /\ Z.of_nat (length loads) <= Z.max 0 (max_depth - current_depth)).
    { intros ok. split; [reflexivity|]. exists [EvLoad m3u8_url ok].
      split; [reflexivity|]. split; [reflexivity|]. simpl. lia. }
    destruct (m3u8_load w m3u8_url) as [why|p]; simpl; [apply Hone|].
    destruct (is_variant p); simpl; [|apply Hone].
    destruct (Py.max bandwidth_of (playlists p)) as [sel|e]; [|apply Hone].
    destruct (IH (urljoin w (base_of m3u8_url) (pl_uri sel)) (current_depth + 1)
                (logged st (EvLoad m3u8_url true)) ltac:(lia))
      as (Hfs & loads & Htr & Hl & Hlen).
    split; [exact Hfs|].
    exists (EvLoad m3u8_url true :: loads).
    split; [rewrite Htr; simpl; rewrite <- app_assoc; reflexivity|].
    split; [exact Hl|]. simpl length. lia.
Qed.

(** X2.  A playlist that cannot be loaded, at any depth of the chain below the
    limit and within the room [fuel] of the interpreter's stack: the error
    of the load is what the caller gets, and the failed load is the last
    call made. *)
Theorem load_failure_reaches_caller (n fuel : nat) (m3u8_url u : string)
    (max_depth current_depth : Z) (st : State) (why : load_error) :
  nth_url w n m3u8_url = Some u ->
  current_depth + Z.of_nat n < max_depth ->
  (n < fuel)%nat ->
  m3u8_load w u = inl why ->
  extract_segment_urls_fuel w fuel m3u8_url max_depth current_depth st
  = (Raise (LoadError why),
     {| fs := fs st;
        trace := (trace st ++ chain_loads w n m3u8_url ++ [EvLoad u false])%list |}).
Proof.
  intros Hnth Hdepth Hfuel Hload.
  rewrite (extract_fuel_follows_chain w n fuel m3u8_url u) by (try lia; exact Hnth).
  rewrite extract_fuel_unfold.
  destruct (Z.geb_spec (current_depth + Z.of_nat n) max_depth); [lia|].
  destruct (fuel - n)%nat eqn:Hleft; [lia|].
  rewrite Hload. unfold logged. cbn [fs trace]. rewrite <- app_assoc. reflexivity.
Qed.

(** X3.  A master playlist that lists no variant, reached below the limit and
    within the room of the stack: [max] is given an empty sequence, and
    the caller gets its [ValueError]. *)
Theorem master_without_variants_raises (n fuel : nat) (m3u8_url u : string)
    (max_depth current_depth : Z) (st : State) (p : M3U8) :
  nth_url w n m3u8_url = Some u ->
  current_depth + Z.of_nat n < max_depth ->
  (n < fuel)%nat ->
  m3u8_load w u = inr p ->
  is_variant p = true ->
  playlists p = [] ->
  (extract_segment_urls_fuel w fuel m3u8_url max_depth current_depth st).1
  = Raise ValueError.
Proof.
  intros Hnth Hdepth Hfuel Hload Hvar Hnone.
  rewrite (extract_fuel_follows_chain w n fuel m3u8_url u) by (try lia; exact Hnth).
  rewrite extract_fuel_unfold.
  destruct (Z.geb_spec (current_depth + Z.of_nat n) max_depth); [lia|].
  destruct (fuel - n)%nat eqn:Hleft; [lia|].
  rewrite Hload, Hvar, Hnone. reflexivity.
Qed.

(** X4.  The result of the resolver on a chain that reaches a media playlist
    below the limit and within the room of the stack: the segments of
    that playlist, resolved against the base of its own URL, after one
    load for each playlist of the chain.  When the stack has no room for
    the call on that playlist, the caller gets [RecursionError]
    instead. *)
Theorem resolves_to_media_of_chain (n fuel : nat) (m3u8_url u : string)
    (max_depth current_depth : Z) (st : State) (p : M3U8) :
  nth_url w n m3u8_url = Some u ->
  current_depth + Z.of_nat n < max_depth ->
  m3u8_load w u = inr p ->
  is_variant p = false ->
  ((n < fuel)%nat ->
   extract_segment_urls_fuel w fuel m3u8_url max_depth current_depth st
   = (Return (map (resolve_segment w (base_of u)) (segments p)),
      {| fs := fs st;
         trace := (trace st ++ chain_loads w n m3u8_url ++ [EvLoad u true])%list |}))
  /\ ((fuel <= n)%nat ->
      (extract_segment_urls_fuel w fuel m3u8_url max_depth current_depth st).1
      = Raise RecursionError).
Proof.
  intros Hnth Hdepth Hload Hmedia. split.
  - intros Hfuel.
    rewrite (extract_fuel_follows_chain w n fuel m3u8_url u) by (try lia; exact Hnth).
    rewrite extract_fuel_unfold.
    destruct (Z.geb_spec (current_depth + Z.of_nat n) max_depth); [lia|].
    destruct (fuel - n)%nat eqn:Hleft; [lia|].
    rewrite Hload, Hmedia. unfold logged. cbn [fs trace]. rewrite <- app_assoc.
    reflexivity.
  - clear Hload Hmedia. revert n m3u8_url current_depth st Hnth Hdepth.
    induction fuel as [|fuel IH]; intros n m3u8_url current_depth st Hnth Hdepth Hfuel;
      rewrite extract_fuel_unfold.
    + destruct (current_depth >=? max_depth); reflexivity.
    + destruct (Z.geb_spec current_depth max_depth); [reflexivity|].
      destruct n as [|n]; [lia|].
      simpl in Hnth. unfold selected_url in Hnth.
      destruct (m3u8_load w m3u8_url) as [why|q]; [discriminate|].
      destruct (is_variant q); [|discriminate].
      destruct (Py.max bandwidth_of (playlists q)) as [sel|e]; [|discriminate].
      apply (IH n); [exact Hnth|lia|lia].
Qed.

(** X5.  A URL without ["/"]: [rsplit] leaves it whole, and the base is the
    URL itself with a ["/"] after it. *)
Theorem base_of_url_without_slash (m3u8_url : string)
    (max_depth current_depth : Z) (st : State) (p : M3U8) :
  contains_slash m3u8_url = false ->
  current_depth < max_depth ->
  m3u8_load w m3u8_url = inr p ->
  is_variant p = false ->
  (_extract_segment_urls w m3u8_url max_depth current_depth st).1
  = Return (map (fun s => if is_url w (seg_uri s) then seg_uri s
                          else urijoin w (m3u8_url ++ "/") (seg_uri s)) (segments p)).
Proof.
  intros Hno Hdepth Hload Hmedia.
  rewrite extract_segment_urls_unfold.
  destruct (Z.geb_spec current_depth max_depth); [lia|].
  rewrite Hload, Hmedia. unfold base_of, rsplit1.
  rewrite (rsplit_slash_none _ Hno). reflexivity.
Qed.

End ResolverChain.

Import Examples MoreExamples.

Lemma load_failure_reaches_caller_witness :
  nth_url w2 0 "http://h/v/missing.m3u8" = Some "http://h/v/missing.m3u8"
  /\ m3u8_load w2 "http://h/v/missing.m3u8" = inl FetchError
  /\ extract_segment_urls_fuel w2 (Z.to_nat 900) "http://h/v/missing.m3u8" 5 0 st0
     = (Raise (LoadError FetchError),
        {| fs := fs st0;
           trace := (trace st0 ++ chain_loads w2 0 "http://h/v/missing.m3u8"
                     ++ [EvLoad "http://h/v/missing.m3u8" false])%list |}).
Proof.
  split; [reflexivity|]. split; [reflexivity|].
  apply (load_failure_reaches_caller w2 0 (Z.to_nat 900) "http://h/v/missing.m3u8"
           "http://h/v/missing.m3u8" 5 0 st0 FetchError);
    [reflexivity|lia|lia|reflexivity].
Defined.

Lemma master_without_variants_raises_witness :
  m3u8_load w2 empty_url = inr master_empty
  /\ (extract_segment_urls_fuel w2 (Z.to_nat 900) empty_url 5 0 st0).1
     = Raise ValueError.
Proof.
  split; [reflexivity|].
  apply (master_without_variants_raises w2 0 (Z.to_nat 900) empty_url empty_url 5 0 st0
           master_empty);
    [reflexivity|lia|lia|reflexivity|reflexivity|reflexivity].
Defined.

Lemma resolves_to_media_of_chain_witness :
  nth_url w1 1 master_url = Some media_url
  /\ extract_segment_urls_fuel w1 (Z.to_nat 900) master_url 5 0 st0
     = (Return (map (resolve_segment w1 (base_of media_url)) (segments media1)),
        {| fs := fs st0;
           trace := (trace st0 ++ chain_loads w1 1 master_url
                     ++ [EvLoad media_url true])%list |})
  /\ (extract_segment_urls_fuel w1 1 master_url 5 0 st0).1 = Raise RecursionError.
Proof.
  split; [vm_compute; reflexivity|].
  split.
  - apply (resolves_to_media_of_chain w1 1 (Z.to_nat 900) master_url media_url 5 0 st0
             media1);
      [vm_compute; reflexivity|lia|reflexivity|reflexivity|lia].
  - apply (resolves_to_media_of_chain w1 1 1 master_url media_url 5 0 st0 media1);
      [vm_compute; reflexivity|lia|reflexivity|reflexivity|lia].
Defined.

Lemma base_of_url_without_slash_witness :
  contains_slash "playlist.m3u8" = false
  /\ (_extract_segment_urls w_media "playlist.m3u8" 5 0 st0).1
     = Return ["playlist.m3u8/seg0.ts"; "playlist.m3u8/seg1.ts"; "http://cdn/seg2.ts"].
Proof.
  split; [reflexivity|].
  apply (base_of_url_without_slash w_media "playlist.m3u8" 5 0 st0 media1);
    [reflexivity|lia|reflexivity|reflexivity].
Defined.

(** ** The names of the segment files, for any number of segments *)

Lemma string_app_nil_r (s : string) : s ++ "" = s.
Proof.
  induction s as [|c s IH]; [reflexivity|].
  change (String c (s ++ "") = String c s). rewrite IH. reflexivity.
Qed.

Lemma string_app_length (a b : string) :
  String.length (a ++ b) = (String.length a + String.length b)%nat.
Proof.
  induction a as [|c a IH]; [reflexivity|].
  change (S (String.length (a ++ b)) = S (String.length a + String.length b)).
  rewrite IH. reflexivity.
Qed.

Lemma string_app_inv_l (p a b : string) : p ++ a = p ++ b -> a = b.
Proof.
  induction p as [|c p IH]; [exact (fun H => H)|].
  change (String c (p ++ a) = String c (p ++ b) -> a = b).
  intros [= H]. exact (IH H).
Qed.

Lemma string_app_inv_r (a b s : string) : a ++ s = b ++ s -> a = b.
Proof.
  revert b. induction a as [|c a IH]; intros [|d b] H.
  - reflexivity.
  - apply (f_equal String.length) in H.
    change (String.length s = S (String.length (b ++ s))) in H.
    rewrite string_app_length in H. lia.
  - apply (f_equal String.length) in H.
    change (S (String.length (a ++ s)) = String.length s) in H.
    rewrite string_app_length in H. lia.
  - change (String c (a ++ s) = String d (b ++ s)) in H.
    injection H as -> H. rewrite (IH b H). reflexivity.
Qed.

Lemma zeros_length (k : nat) : String.length (zeros k) = k.
Proof. induction k as [|k IH]; simpl; [reflexivity|rewrite IH; reflexivity]. Qed.

(** Zeros in front of a number are read and do not count. *)
Lemma zeros_decode (k : nat) (s : string) :
  option_map Nat.of_uint (NilEmpty.uint_of_string (zeros k ++ s))
  = option_map Nat.of_uint (NilEmpty.uint_of_string s).
Proof.
  induction k as [|k IH]; [reflexivity|].
  change (option_map Nat.of_uint
            (match NilEmpty.uint_of_string (zeros k ++ s) with
             | Some d => Some (Decimal.D0 d)
             | None => None
             end)
          = option_map Nat.of_uint (NilEmpty.uint_of_string s)).
  rewrite <- IH.
  destruct (NilEmpty.uint_of_string (zeros k ++ s)) as [d|]; reflexivity.
Qed.

Lemma format_04d_decode (idx : nat) :
  option_map Nat.of_uint (NilEmpty.uint_of_string (format_04d idx)) = Some idx.
Proof.
  unfold format_04d. rewrite zeros_decode. unfold decimal. rewrite NilEmpty.usu. simpl.
  rewrite DecimalNat.Unsigned.of_to. reflexivity.
Qed.

(** X6.  Reading the padded index as a decimal number gives the index back,
    and the padding brings it to four characters or leaves it longer. *)
Theorem format_04d_decodes (idx : nat) :
  option_map Nat.of_uint (NilEmpty.uint_of_string (format_04d idx)) = Some idx
  /\ String.length (format_04d idx) = Nat.max 4 (String.length (decimal idx)).
Proof.
  split; [apply format_04d_decode|].
  unfold format_04d. rewrite string_app_length, zeros_length. lia.
Qed.

Lemma format_04d_inj (i j : nat) : format_04d i = format_04d j -> i = j.
Proof.
  intros H.
  pose proof (format_04d_decode i) as Hi. pose proof (format_04d_decode j) as Hj.
  rewrite H in Hi. congruence.
Qed.

Lemma segment_name_inj (i j : nat) : segment_name i = segment_name j -> i = j.
Proof.
  unfold segment_name. intros H.
  apply string_app_inv_l, string_app_inv_r in H. apply format_04d_inj, H.
Qed.

Lemma segment_path_inj (segments_dir : string) (i j : nat) :
  segment_path segments_dir i = segment_path segments_dir j -> i = j.
Proof.
  rewrite !segment_path_prefix. intros H.
  apply string_app_inv_l in H. apply segment_name_inj, H.
Qed.

(** X7.  Two segments never share a destination, in any directory and however
    large their indices are. *)
Theorem distinct_segments_distinct_paths (segments_dir : string) (i j : nat) :
  i <> j -> segment_path segments_dir i <> segment_path segments_dir j.
Proof.
  intros Hij Hpath. apply Hij. apply (segment_path_inj segments_dir), Hpath.
Qed.

Lemma segment_paths_NoDup (segments_dir : string) (n : nat) :
  NoDup (map (segment_path segments_dir) (seq 0 n)).
Proof.
  apply NoDup_fmap_2_strong; [|apply NoDup_seq].
  intros i j _ _ H. apply (segment_path_inj segments_dir), H.
Qed.

(** X8.  For any number of segment URLs, repeated or not, the download map
    has one job for each URL, in the order of the URLs: job [i] sends
    URL [i] to the path of index [i], and no path is used twice. *)
Theorem download_map_one_job_per_url (segments_dir : string)
    (segment_urls : list string) :
  make_download_map segments_dir segment_urls
  = combine (map (segment_path segments_dir) (seq 0 (length segment_urls))) segment_urls
  /\ length (make_download_map segments_dir segment_urls) = length segment_urls
  /\ NoDup (dict_keys (make_download_map segments_dir segment_urls))
  /\ map snd (make_download_map segments_dir segment_urls) = segment_urls.
Proof.
  assert (Heq := make_download_map_distinct segments_dir segment_urls
                   (segment_paths_NoDup _ _)).
  assert (Hlen : length (map (segment_path segments_dir) (seq 0 (length segment_urls)))
                 = length segment_urls)
    by (rewrite length_map, length_seq; reflexivity).
  rewrite Heq. split; [reflexivity|]. split; [|split].
  - rewrite length_combine, Hlen. lia.
  - rewrite dict_keys_combine by exact Hlen. apply segment_paths_NoDup.
  - clear Heq. revert Hlen.
    generalize (map (segment_path segments_dir) (seq 0 (length segment_urls))) as ks.
    induction segment_urls as [|u us IH]; intros [|k ks] Hlen; simpl in *;
      try reflexivity; try discriminate.
    rewrite IH by lia. reflexivity.
Qed.

Section Manifest.
Context (w : World).

Lemma file_list_content_from (segment_files : list string) (written : string) :
  fold_left (fun written file_path =>
               written ++ "file '" ++ abspath w file_path ++ "'" ++ newline)
    segment_files written
  = written
    ++ String.concat ""
         (map (fun file_path => "file '" ++ abspath w file_path ++ "'" ++ newline)
            segment_files).
Proof.
  revert written. induction segment_files as [|f fs IH]; intros written.
  - simpl. rewrite string_app_nil_r. reflexivity.
  - cbn [fold_left map]. rewrite IH, string_app_assoc.
    apply (f_equal (String.append written)).
    destruct fs as [|g fs]; [|reflexivity].
    cbn [map String.concat]. apply string_app_nil_r.
Qed.

(** X9.  The manifest of a download lists the segment files in the order of
    the playlist, one line each, for any number of segments: the order of
    the merge is that of the dict, not that of the names. *)
Theorem manifest_in_playlist_order (segments_dir : string) (segment_urls : list string) :
  file_list_content w (dict_keys (make_download_map segments_dir segment_urls))
  = String.concat ""
      (map (fun idx => "file '" ++ abspath w (segment_path segments_dir idx) ++ "'"
                       ++ newline)
         (seq 0 (length segment_urls))).
Proof.
  rewrite (make_download_map_distinct segments_dir segment_urls
             (segment_paths_NoDup _ _)).
  rewrite dict_keys_combine by (rewrite length_map, length_seq; reflexivity).
  unfold file_list_content. rewrite file_list_content_from, map_map. reflexivity.
Qed.

End Manifest.

Lemma distinct_segments_distinct_paths_witness :
  (Z.to_nat 1 <> Z.to_nat 10001)%nat
  /\ segment_path "/tmp/ws/ts_segments" (Z.to_nat 1)
     <> segment_path "/tmp/ws/ts_segments" (Z.to_nat 10001).
Proof.
  split; [lia|].
  apply (distinct_segments_distinct_paths "/tmp/ws/ts_segments" (Z.to_nat 1)
           (Z.to_nat 10001)).
  lia.
Defined.

(** ** The merge and the whole call, further *)

Section MergeOutcome.
Context (w : World).

(** X10.  [_merge_and_convert_segments] returns [True] exactly when the
    manifest was written and both processes returned (and no directory
    sits at the path of the manifest, which could then not be removed). *)
Theorem merge_returns_true_iff (segment_files : list string)
    (intermediate_ts_path final_output_path : string) (st : State) :
  let p := file_list_path_of intermediate_ts_path in
  let written := Os.write_file p (file_list_content w segment_files) (fs st) in
  let merged := subprocess_run w (merge_cmd p intermediate_ts_path) written.2 in
  let converted :=
    subprocess_run w (convert_cmd intermediate_ts_path final_output_path) merged.2 in
  (_merge_and_convert_segments w segment_files intermediate_ts_path final_output_path
     st).1 = Return true
  <-> (written.1 = Return tt /\ merged.1 = Return tt /\ converted.1 = Return tt
       /\ Os.path_isdir p converted.2 = false).
Proof.
  intros p written merged converted.
  unfold _merge_and_convert_segments, try_finally, try_except, merge_and_convert_body,
    bind, run, call_fs, ret.
  fold (file_list_path_of intermediate_ts_path). fold p. fold written.
  unfold remove_file_list, bind, os_path_exists, on_fs, ret, Os.remove, Os.path_exists,
    Os.path_isdir.
  destruct written as [[[]|e1] fs1] eqn:E1; cbn [fst snd fs trace] in *.
  - fold merged.
    destruct merged as [[[]|e2] fs2] eqn:E2; cbn [fst snd fs trace] in *.
    + fold converted.
      destruct converted as [[[]|e3] fs3] eqn:E3; cbn [fst snd fs trace] in *.
      * destruct (fs3 !! Os.fs_key p) as [[c|]|] eqn:Hp; repeat (simpl; rewrite ?Hp);
          (split; [intros H; try discriminate H; auto|intros (_ & _ & _ & H)]);
          try discriminate H; reflexivity.
      * split; [|intros (_ & _ & H & _); discriminate H].
        destruct (is_Exception e3); cbn [fst snd fs trace];
          destruct (fs3 !! Os.fs_key p) as [[c|]|] eqn:Hp; repeat (simpl; rewrite ?Hp);
          intros H; discriminate H.
    + split; [|intros (_ & H & _); discriminate H].
      destruct (is_Exception e2); cbn [fst snd fs trace];
        destruct (fs2 !! Os.fs_key p) as [[c|]|] eqn:Hp; repeat (simpl; rewrite ?Hp);
        intros H; discriminate H.
  - split; [|intros (H & _); discriminate H].
    destruct (is_Exception e1); cbn [fst snd fs trace];
      destruct (fs1 !! Os.fs_key p) as [[c|]|] eqn:Hp; repeat (simpl; rewrite ?Hp);
      intros H; discriminate H.
Qed.

(** When it returns [True], the three calls were made and returned, in
    this order. *)
Lemma merge_success_trace (segment_files : list string)
    (intermediate_ts_path final_output_path : string) (st : State) :
  (_merge_and_convert_segments w segment_files intermediate_ts_path final_output_path
     st).1 = Return true ->
  trace (_merge_and_convert_segments w segment_files intermediate_ts_path
           final_output_path st).2
  = (trace st ++
     [ EvWrite (file_list_path_of intermediate_ts_path)
         (file_list_content w segment_files) true;
       EvRun (merge_cmd (file_list_path_of intermediate_ts_path) intermediate_ts_path)
         true;
       EvRun (convert_cmd intermediate_ts_path final_output_path) true ])%list.
Proof.
  unfold _merge_and_convert_segments, try_finally, try_except, merge_and_convert_body,
    bind, run, call_fs, ret.
  fold (file_list_path_of intermediate_ts_path).
  set (p := file_list_path_of intermediate_ts_path).
  unfold remove_file_list, bind, os_path_exists, on_fs, ret, Os.remove, Os.path_exists.
  destruct (Os.write_file p (file_list_content w segment_files) (fs st))
    as [[[]|e1] fs1]; cbn [fst snd fs trace].
  - destruct (subprocess_run w (merge_cmd p intermediate_ts_path) fs1)
      as [[[]|e2] fs2]; cbn [fst snd fs trace].
    + destruct (subprocess_run w (convert_cmd intermediate_ts_path final_output_path)
                  fs2) as [[[]|e3] fs3]; cbn [fst snd fs trace].
      * destruct (fs3 !! Os.fs_key p) as [[c|]|] eqn:Hp; repeat (simpl; rewrite ?Hp);
          intros H; try discriminate H; rewrite <- !app_assoc; reflexivity.
      * destruct (is_Exception e3); cbn [fst snd fs trace];
          destruct (fs3 !! Os.fs_key p) as [[c|]|] eqn:Hp; repeat (simpl; rewrite ?Hp);
          intros H; discriminate H.
    + destruct (is_Exception e2); cbn [fst snd fs trace];
        destruct (fs2 !! Os.fs_key p) as [[c|]|] eqn:Hp; repeat (simpl; rewrite ?Hp);
        intros H; discriminate H.
  - destruct (is_Exception e1); cbn [fst snd fs trace];
      destruct (fs1 !! Os.fs_key p) as [[c|]|] eqn:Hp; repeat (simpl; rewrite ?Hp);
      intros H; discriminate H.
Qed.

End MergeOutcome.

Lemma mkdir_exist_ok_keeps_entry (last : bool) (d : string) (fs : FS) (k : string)
    (v : node) :
  fs !! k = Some v -> (Os.mkdir_exist_ok last d fs).2 !! k = Some v.
Proof.
  intros Hk. unfold Os.mkdir_exist_ok.
  destruct (fs !! d) as [[c|]|] eqn:Hd; simpl; try exact Hk.
  rewrite lookup_insert_ne; [exact Hk|]. intros ->. congruence.
Qed.

Lemma mkdir_chain_keeps_entry (ds : list string) (fs : FS) (k : string) (v : node) :
  fs !! k = Some v -> (Os.mkdir_chain ds fs).2 !! k = Some v.
Proof.
  revert fs. induction ds as [|d ds IH]; intros fs Hk; [exact Hk|].
  simpl.
  pose proof (mkdir_exist_ok_keeps_entry
                (match ds with [] => true | _ => false end) d fs k v Hk) as Hstep.
  destruct (Os.mkdir_exist_ok _ d fs) as [[[]|e] fs1]; simpl in *.
  - apply IH, Hstep.
  - exact Hstep.
Qed.

(** [os.makedirs] cannot get past a regular file on its way. *)
Lemma mkdir_chain_file (ds : list string) (fs : FS) (k c : string) :
  k ∈ ds -> fs !! k = Some (File c) ->
  exists e, (Os.mkdir_chain ds fs).1 = Raise e
            /\ (e = FileExistsError \/ e = NotADirectoryError).
Proof.
  revert fs. induction ds as [|d ds IH]; intros fs Hin Hk.
  - apply elem_of_nil in Hin. contradiction.
  - simpl. unfold Os.mkdir_exist_ok.
    destruct (fs !! d) as [[c0|]|] eqn:Hd.
    + simpl. destruct ds; eauto.
    + apply elem_of_cons in Hin as [->|Hin]; [congruence|]. apply IH; assumption.
    + apply elem_of_cons in Hin as [->|Hin]; [congruence|]. apply IH; [exact Hin|].
      rewrite lookup_insert_ne; [exact Hk|]. intros ->. congruence.
Qed.

Section WholeCall.
Context (w : World).

(** When the forward stages return, every one of them was run and
    returned. *)
Lemma run_stages_success (m3u8_url output_path segments_dir : string) (fr : Frame) :
  (run_stages w m3u8_url output_path segments_dir fr).1 = Return tt ->
  exists loads urls,
    (forall st_any, (_extract_segment_urls w m3u8_url 5 0 st_any).1 = Return urls)
    /\ forallb is_load loads = true
    /\ trace (state (run_stages w m3u8_url output_path segments_dir fr).2)
       = (trace (state fr) ++ loads ++
          [ EvDownload (make_download_map segments_dir urls) true;
            EvWrite
              (file_list_path_of
                 (Os.path_join (default "" (temp_directory fr)) "merged_video.ts"))
              (file_list_content w (dict_keys (make_download_map segments_dir urls)))
              true;
            EvRun
              (merge_cmd
                 (file_list_path_of
                    (Os.path_join (default "" (temp_directory fr)) "merged_video.ts"))
                 (Os.path_join (default "" (temp_directory fr)) "merged_video.ts"))
              true;
            EvRun
              (convert_cmd
                 (Os.path_join (default "" (temp_directory fr)) "merged_video.ts")
                 output_path) true ])%list.
Proof.
  destruct fr as [st cl tmp].
  unfold run_stages, bind, get, ret, raise.
  cbn [state cleanup_temp temp_directory].
  assert (Hout : exists r1 st1,
            trace st1 = trace st /\
            (if negb (String.eqb (Os.path_dirname output_path) "")
             then in_frame (on_fs (Os.makedirs (Os.path_dirname output_path)))
             else fun s => (Return tt, s))
              {| state := st; cleanup_temp := cl; temp_directory := tmp |}
            = (r1, {| state := st1; cleanup_temp := cl; temp_directory := tmp |})).
  { destruct (negb (String.eqb (Os.path_dirname output_path) "")).
    - rewrite in_frame_eq. unfold on_fs. cbn [state cleanup_temp temp_directory].
      destruct (Os.makedirs (Os.path_dirname output_path) (fs st)) as [r1 fs1].
      exists r1, {| fs := fs1; trace := trace st |}. split; reflexivity.
    - exists (Return tt), st. split; reflexivity. }
  destruct Hout as (r1 & st1 & Htr1 & Hrun). rewrite Hrun. clear Hrun.
  destruct r1 as [[]|e1]; [|cbn [fst]; discriminate].
  rewrite in_frame_eq. cbn [state cleanup_temp temp_directory fst snd].
  destruct (extract_segment_urls_effect w m3u8_url 5 0 st1)
    as (Hfs2 & loads & Htr2 & Hloads & _ & _).
  pose proof (fun st_any => extract_segment_urls_outcome w m3u8_url 5 0 st1 st_any)
    as Hindep.
  destruct (_extract_segment_urls w m3u8_url 5 0 st1) as [[urls|e] st2];
    cbn [fst snd cleanup_temp temp_directory state] in *; [|discriminate].
  rewrite in_frame_eq. unfold call_fs. cbn [state cleanup_temp temp_directory].
  set (download_map := make_download_map segments_dir urls).
  destruct (download_files w download_map (fs st2)) as [[[]|e] fs3];
    cbn [fst snd is_Return cleanup_temp temp_directory state]; [|discriminate].
  rewrite in_frame_eq. cbn [state cleanup_temp temp_directory].
  set (st3 := {| fs := fs3; trace := (trace st2 ++ [EvDownload download_map true])%list |}).
  set (merged := Os.path_join (default "" tmp) "merged_video.ts").
  pose proof (merge_success_trace w (dict_keys download_map) merged output_path st3)
    as Hmerge.
  destruct (_merge_and_convert_segments w (dict_keys download_map) merged output_path st3)
    as [[success|e] st4]; cbn [fst snd state] in *; [|discriminate].
  destruct success; cbn [negb fst snd state]; [|discriminate].
  intros _. exists loads, urls.
  split; [intros st_any; symmetry; apply Hindep|]. split; [exact Hloads|].
  rewrite (Hmerge eq_refl). unfold st3. cbn [trace].
  rewrite Htr2, Htr1, <- !app_assoc. reflexivity.
Qed.

(** X11.  [download_video] returns only after every stage was run and
    returned: the playlist was resolved, every segment URL was handed to
    the fetch, the manifest was written and both [ffmpeg] commands were
    run, in this order. *)
Theorem success_runs_every_stage (m3u8_url output_path : string)
    (tmp : option string) (cl : option bool) (st0 : State) :
  (download_video w m3u8_url output_path tmp cl st0).1 = Return tt ->
  exists loads urls tail,
    (_extract_segment_urls w m3u8_url 5 0 st0).1 = Return urls
    /\ forallb is_load loads = true
    /\ trace (download_video w m3u8_url output_path tmp cl st0).2
       = (trace st0 ++ loads ++
          [ EvDownload
              (make_download_map
                 (Os.path_join (effective_temp_directory w tmp (fs st0)) "ts_segments")
                 urls) true;
            EvWrite
              (file_list_path_of
                 (Os.path_join (effective_temp_directory w tmp (fs st0))
                    "merged_video.ts"))
              (file_list_content w
                 (dict_keys
                    (make_download_map
                       (Os.path_join (effective_temp_directory w tmp (fs st0))
                          "ts_segments") urls)))
              true;
            EvRun
              (merge_cmd
                 (file_list_path_of
                    (Os.path_join (effective_temp_directory w tmp (fs st0))
                       "merged_video.ts"))
                 (Os.path_join (effective_temp_directory w tmp (fs st0))
                    "merged_video.ts"))
              true;
            EvRun
              (convert_cmd
                 (Os.path_join (effective_temp_directory w tmp (fs st0))
                    "merged_video.ts")
                 output_path) true;
            EvFinally ] ++ tail)%list.
Proof.
  rewrite download_video_eq. cbn [fst snd].
  set (dir := effective_temp_directory w tmp (fs st0)).
  destruct (prepare_workspace_effect w (entry_frame st0 tmp cl))
    as (Htr & _ & Htmp & _ & Hdone).
  unfold bind.
  destruct (prepare_workspace w (entry_frame st0 tmp cl)) as [[segments_dir|e] fr1];
    cbn [fst snd entry_frame state cleanup_temp temp_directory] in *.
  2:{ destruct (cleanup_workspace fr1).1; discriminate. }
  destruct (Hdone segments_dir eq_refl) as [-> _]. fold dir in Htmp. fold dir.
  pose proof (run_stages_success m3u8_url output_path (Os.path_join dir "ts_segments") fr1)
    as Hrun.
  destruct (run_stages w m3u8_url output_path (Os.path_join dir "ts_segments") fr1)
    as [rb fr2]. cbn [fst snd] in *.
  destruct (cleanup_workspace_trace fr2) as (tail & Htr2 & _).
  intros Hret.
  assert (Hrb : rb = Return tt).
  { revert Hret. destruct (cleanup_workspace fr2).1; [intros H; exact H|discriminate]. }
  destruct (Hrun Hrb) as (loads & urls & Hres & Hloads & Htrace).
  exists loads, urls, tail.
  split; [apply Hres|]. split; [exact Hloads|].
  rewrite Htr2, Htrace, Htr, Htmp. cbn [default from_option id].
  rewrite <- !app_assoc. reflexivity.
Qed.


(** X13.  The requested working directory, written without a slash at its
    end, is a regular file, and the cleanup flag is on: [os.makedirs]
    raises, the [finally] clause finds the path there and gives it to
    [shutil.rmtree], and the [NotADirectoryError] of [rmtree] is what the
    caller gets, in place of the error of the [try] block.  (With a slash
    at its end the path of a regular file does not exist for
    [os.path.exists], and this is left out.) *)
Theorem cleanup_error_replaces_failure (m3u8_url output_path dir : string)
    (cl : option bool) (st0 : State) (c : string) :
  dir <> "" ->
  Os.ends_with_slash dir = false ->
  fs st0 !! Os.fs_key dir = Some (File c) ->
  effective_cleanup w cl = true ->
  (exists e, (prepare_workspace w (entry_frame st0 (Some dir) cl)).1 = Raise e
             /\ (e = FileExistsError \/ e = NotADirectoryError))
  /\ (download_video w m3u8_url output_path (Some dir) cl st0).1
     = Raise NotADirectoryError
  /\ fs (download_video w m3u8_url output_path (Some dir) cl st0).2 !! Os.fs_key dir
     = Some (File c).
Proof.
  intros Hne _ Hfile Hflag.
  assert (Htruthy : truthy_str (Some dir) = true).
  { simpl. apply negb_true_iff, String.eqb_neq, Hne. }
  destruct (mkdir_chain_file (Os.dir_chain dir) (fs st0) (Os.fs_key dir) c
              (dir_chain_self dir Hne) Hfile) as (e & He & Hclass).
  pose proof (mkdir_chain_keeps_entry (Os.dir_chain dir) (fs st0) _ _ Hfile) as Hkept.
  assert (Hprep : exists st1,
            prepare_workspace w (entry_frame st0 (Some dir) cl)
            = (Raise e, {| state := st1; cleanup_temp := Some true;
                           temp_directory := Some dir |})
            /\ fs st1 !! Os.fs_key dir = Some (File c)).
  { unfold prepare_workspace, entry_frame, bind, get, set_cleanup_temp, modify, ret,
      in_frame, on_fs, Os.makedirs.
    cbn [state cleanup_temp temp_directory fst snd].
    rewrite Htruthy. cbn [negb default from_option id].
    unfold effective_cleanup in Hflag.
    destruct cl as [b|]; cbn [state cleanup_temp temp_directory fst snd fs trace];
      rewrite ?Hflag;
      (destruct (Os.mkdir_chain (Os.dir_chain dir) (fs st0)) as [r fs1];
       cbn [fst snd] in *; subst; eexists; split; [reflexivity|exact Hkept]). }
  destruct Hprep as (st1 & Hprep & Hfile1).
  split; [exists e; rewrite Hprep; split; [reflexivity|exact Hclass]|].
  rewrite download_video_eq. unfold bind. rewrite Hprep. cbn [fst snd].
  unfold cleanup_workspace, bind, in_frame, log_event, get, raise, ret, os_path_exists,
    on_fs, modify, Os.path_exists, Os.rmtree.
  cbn [state cleanup_temp temp_directory fst snd fs trace truthy_bool].
  repeat (simpl; rewrite ?Hfile1). split; reflexivity.
Qed.

End WholeCall.

Import Examples MoreExamples.

Lemma success_runs_every_stage_witness :
  (download_video w1 master_url "out/video.mp4" (Some "/tmp/ws") (Some true) st_ws).1
  = Return tt
  /\ exists loads urls tail,
       (_extract_segment_urls w1 master_url 5 0 st_ws).1 = Return urls
       /\ forallb is_load loads = true
       /\ trace (download_video w1 master_url "out/video.mp4" (Some "/tmp/ws")
                   (Some true) st_ws).2
          = (trace st_ws ++ loads ++
             [ EvDownload (make_download_map "/tmp/ws/ts_segments" urls) true;
               EvWrite "/tmp/ws/merged_video.ts.txt"
                 (file_list_content w1
                    (dict_keys (make_download_map "/tmp/ws/ts_segments" urls))) true;
               EvRun (merge_cmd "/tmp/ws/merged_video.ts.txt" "/tmp/ws/merged_video.ts")
                 true;
               EvRun (convert_cmd "/tmp/ws/merged_video.ts" "out/video.mp4") true;
               EvFinally ] ++ tail)%list.
Proof.
  split; [vm_compute; reflexivity|].
  apply (success_runs_every_stage w1 master_url "out/video.mp4" (Some "/tmp/ws")
           (Some true) st_ws).
  vm_compute. reflexivity.
Defined.


Lemma cleanup_error_replaces_failure_witness :
  Os.ends_with_slash "/tmp/f" = false
  /\ fs st_blocked !! Os.fs_key "/tmp/f" = Some (File "data")
  /\ (prepare_workspace w1 (entry_frame st_blocked (Some "/tmp/f") (Some true))).1
     = Raise FileExistsError
  /\ (download_video w1 master_url "out/video.mp4" (Some "/tmp/f") (Some true)
        st_blocked).1 = Raise NotADirectoryError.
Proof.
  split; [reflexivity|].
  split; [vm_compute; reflexivity|]. split; [vm_compute; reflexivity|].
  apply (cleanup_error_replaces_failure w1 master_url "out/video.mp4" "/tmp/f"
           (Some true) st_blocked "data");
    [discriminate|reflexivity|vm_compute; reflexivity|reflexivity].
Defined.

Lemma path_join_ts_segments_nonempty (a : string) : Os.path_join a "ts_segments" <> "".
Proof.
  unfold Os.path_join. cbn [Os.starts_with_slash Ascii.eqb Bool.eqb].
  destruct (String.eqb a "" || Os.ends_with_slash a); intros H;
    apply (f_equal String.length) in H; rewrite !string_app_length in H;
    simpl in H; lia.
Qed.

Lemma makedirs_makes (p : string) (fs : FS) :
  p <> "" -> (Os.makedirs p fs).1 = Return tt ->
  Os.path_isdir p (Os.makedirs p fs).2 = true.
Proof.
  intros Hp Hret. unfold Os.path_isdir.
  destruct (Os.makedirs p fs) as [r fs1] eqn:Hmk. cbn [fst snd] in *. subst r.
  rewrite (makedirs_ok _ _ _ Hmk _ (dir_chain_self _ Hp)). reflexivity.
Qed.

Section Workspace.
Context (w : World).

Lemma prepare_workspace_segments_dir (fr : Frame) (segments_dir : string) :
  (prepare_workspace w fr).1 = Return segments_dir ->
  Os.path_isdir segments_dir (fs (state (prepare_workspace w fr).2)) = true.
Proof.
  destruct fr as [st cl tmp].
  unfold prepare_workspace.
  unfold bind, get, set_cleanup_temp, set_temp_directory, modify, ret, in_frame,
    mkdtemp, on_fs.
  cbn [state cleanup_temp temp_directory fst snd].
  destruct (truthy_str tmp); cbn [negb];
    [|destruct (truthy_str (temp_dir (get_config w)))];
    destruct cl as [b|];
    cbn [state cleanup_temp temp_directory fst snd fs trace default from_option id].
  all: repeat match goal with
         | |- context [Os.makedirs ?p ?f] =>
             pose proof (makedirs_makes p f);
             destruct (Os.makedirs p f) as [[[]|?] ?];
             cbn [state cleanup_temp temp_directory fst snd fs trace default
                    from_option id] in *
         end.
  all: try discriminate.
  all: intros [= <-];
    match goal with
    | H : _ -> _ -> Os.path_isdir (Os.path_join ?d "ts_segments") _ = true |- _ =>
        apply H; [apply path_join_ts_segments_nonempty|reflexivity]
    end.
Qed.

(** X14.  Lines 132 to 142.  The cleanup flag is the argument if one is given,
    else that of the configuration; the working directory is the
    argument if it is not empty, else that of the configuration if it is
    not empty, else a new temporary directory.  When the preparation
    returns, the working directory and its [ts_segments] directory exist,
    and no directory that was there has gone. *)
Theorem workspace_is_prepared (tmp : option string) (cl : option bool) (st0 : State)
    (segments_dir : string) :
  (prepare_workspace w (entry_frame st0 tmp cl)).1 = Return segments_dir ->
  segments_dir = Os.path_join (effective_temp_directory w tmp (fs st0)) "ts_segments"
  /\ temp_directory (prepare_workspace w (entry_frame st0 tmp cl)).2
     = Some (effective_temp_directory w tmp (fs st0))
  /\ cleanup_temp (prepare_workspace w (entry_frame st0 tmp cl)).2
     = Some (effective_cleanup w cl)
  /\ Os.path_isdir (effective_temp_directory w tmp (fs st0))
       (fs (state (prepare_workspace w (entry_frame st0 tmp cl)).2)) = true
  /\ Os.path_isdir segments_dir
       (fs (state (prepare_workspace w (entry_frame st0 tmp cl)).2)) = true
  /\ (forall k, fs st0 !! k = Some Dir ->
        fs (state (prepare_workspace w (entry_frame st0 tmp cl)).2) !! k = Some Dir).
Proof.
  intros Hprep.
  destruct (prepare_workspace_effect w (entry_frame st0 tmp cl))
    as (_ & Hcl & Htmp & Hkeep & Hdone).
  destruct (Hdone segments_dir Hprep) as [Hseg Hdir].
  split; [exact Hseg|]. split; [exact Htmp|]. split; [exact Hcl|].
  split; [exact Hdir|]. split; [|exact Hkeep].
  apply prepare_workspace_segments_dir, Hprep.
Qed.

End Workspace.

Lemma workspace_is_prepared_witness :
  (prepare_workspace w1 (entry_frame st0 None None)).1
  = Return "/tmp/m3u8_download_0/ts_segments"
  /\ temp_directory (prepare_workspace w1 (entry_frame st0 None None)).2
     = Some "/tmp/m3u8_download_0"
  /\ cleanup_temp (prepare_workspace w1 (entry_frame st0 None None)).2 = Some true
  /\ Os.path_isdir "/tmp/m3u8_download_0/ts_segments"
       (fs (state (prepare_workspace w1 (entry_frame st0 None None)).2)) = true.
Proof.
  split; [vm_compute; reflexivity|].
  destruct (workspace_is_prepared w1 None None st0 "/tmp/m3u8_download_0/ts_segments")
    as (_ & Htmp & Hcl & _ & Hseg & _); [vm_compute; reflexivity|].
  split; [exact Htmp|]. split; [exact Hcl|exact Hseg].
Defined.

(** ** The data files *)

Section StorageFacts.
Import Storage.
Context (env : Env).

(** X15.  The writers accept the same data.  What [_normalize_records] returns
    is a list of dicts, as long as [_record_count] says; what it refuses
    with [TypeError], [_save_json] refuses as well, before it touches the
    file. *)
Theorem writers_accept_the_same_data (data : value) :
  match _normalize_records data with
  | Ok records =>
      forallb is_dict records = true
      /\ _record_count data = Ok (length records)
      /\ is_dict data || is_dict_list data = true
  | Err e =>
      e = Exn TypeError
      /\ forall file_path mode fs,
           _save_json env data file_path mode fs = (Err (Exn TypeError), fs)
  end.
Proof.
  destruct data as [| b | z | s | items | items]; simpl; auto.
  destruct (forallb is_dict items) eqn:Hall; simpl; auto.
  split; [reflexivity|]. intros file_path mode fs. unfold _save_json. simpl.
  rewrite Hall. reflexivity.
Qed.

(** The directory of [file_path] is there (or the path has none). *)
Lemma write_file_ok (file_path text : string) (fs : FS) :
  fs !! Os.fs_key file_path <> Some Dir ->
  String.eqb (Os.path_dirname file_path) "" || Os.path_isdir (Os.path_dirname file_path) fs
  = true ->
  Os.write_file file_path text fs
  = (Return tt, <[Os.fs_key file_path := File text]> fs).
Proof.
  intros Hnd Hparent. unfold Os.write_file. rewrite Hparent.
  destruct (fs !! Os.fs_key file_path) as [[c|]|]; try reflexivity. contradiction.
Qed.

(** X16.  In mode ["a"], on a file that holds a JSON list, the records are
    added at the end of the list, and the file is written anew with the
    longer list. *)
Theorem save_json_appends_to_list (data : value) (file_path : string) (fs : FS)
    (text : string) (existing records : list value) :
  fs !! Os.fs_key file_path = Some (File text) ->
  text <> "" ->
  json_load env text = Some (VList existing) ->
  _normalize_records data = Ok records ->
  String.eqb (Os.path_dirname file_path) "" || Os.path_isdir (Os.path_dirname file_path) fs
  = true ->
  _save_json env data file_path "a" fs
  = (Ok tt,
     <[Os.fs_key file_path := File (json_dump env (VList (existing ++ records)))]> fs).
Proof.
  intros Hfile Htext Hload Hnorm Hparent.
  assert (Hne : exists_nonempty file_path fs = true).
  { unfold exists_nonempty. rewrite Hfile. apply negb_true_iff, String.eqb_neq, Htext. }
  assert (Hnd : fs !! Os.fs_key file_path <> Some Dir) by (rewrite Hfile; discriminate).
  unfold _save_json. rewrite Hne. unfold read_text. rewrite Hfile, Hload.
  destruct data as [| b | z | s | items | items]; simpl in Hnorm; try discriminate.
  - destruct (forallb is_dict items) eqn:Hall; [|discriminate].
    injection Hnorm as <-. simpl. rewrite Hall. simpl.
    rewrite (write_file_ok _ _ _ Hnd Hparent). reflexivity.
  - injection Hnorm as <-. simpl.
    rewrite (write_file_ok _ _ _ Hnd Hparent). reflexivity.
Qed.

(** What [_save_json] writes once it has settled on [target_data]. *)
Lemma save_json_writes_target (data target : value) (file_path mode : string)
    (fs : FS) :
  is_dict data || is_dict_list data = true ->
  fs !! Os.fs_key file_path <> Some Dir ->
  String.eqb (Os.path_dirname file_path) "" || Os.path_isdir (Os.path_dirname file_path) fs
  = true ->
  (if String.eqb mode "a" && exists_nonempty file_path fs
   then match read_text file_path fs with
        | Err e => Err e
        | Ok text =>
            match json_load env text with
            | None => Err (Exn ValueError)
            | Some (VList existing) =>
                match data with
                | VDict _ => Ok (VList (existing ++ [data]))
                | VList items => Ok (VList (existing ++ items))
                | _ => Err (Exn TypeError)
                end
            | Some _ => Ok data
            end
        end
   else Ok data) = Ok target ->
  _save_json env data file_path mode fs
  = (Ok tt, <[Os.fs_key file_path := File (json_dump env target)]> fs).
Proof.
  intros Hdata Hnd Hparent Htarget.
  assert (Hcount : exists n, _record_count data = Ok n).
  { destruct data; simpl in *; try discriminate; eauto. }
  destruct Hcount as [n Hcount].
  unfold _save_json.
  replace (negb (is_dict data) && negb (is_dict_list data)) with false
    by (destruct (is_dict data), (is_dict_list data); simpl in *; congruence).
  rewrite Htarget, (write_file_ok _ _ _ Hnd Hparent), Hcount. reflexivity.
Qed.

(** X17.  Unless the mode is ["a"] and the file holds a JSON list, the file is
    replaced by the data alone: with any other mode (the file is opened
    with ["w"] whatever [mode] is), on a missing or empty file, and on a
    file whose JSON is not a list, what was there is lost. *)
Theorem save_json_replaces_unless_list (data : value) (file_path mode : string)
    (fs : FS) :
  is_dict data || is_dict_list data = true ->
  fs !! Os.fs_key file_path <> Some Dir ->
  String.eqb (Os.path_dirname file_path) "" || Os.path_isdir (Os.path_dirname file_path) fs
  = true ->
  (mode <> "a"
   \/ exists_nonempty file_path fs = false
   \/ exists text v, fs !! Os.fs_key file_path = Some (File text)
                     /\ json_load env text = Some v
                     /\ forall items, v <> VList items) ->
  _save_json env data file_path mode fs
  = (Ok tt, <[Os.fs_key file_path := File (json_dump env data)]> fs).
Proof.
  intros Hdata Hnd Hparent Hcase.
  apply save_json_writes_target; try assumption.
  destruct Hcase as [Hmode|[Hempty|(text & v & Hfile & Hload & Hnot)]].
  - apply String.eqb_neq in Hmode. rewrite Hmode. reflexivity.
  - rewrite Hempty, andb_false_r. reflexivity.
  - destruct (String.eqb mode "a" && exists_nonempty file_path fs); [|reflexivity].
    unfold read_text. rewrite Hfile, Hload.
    destruct v; try reflexivity. destruct (Hnot items eq_refl).
Qed.

(** X18.  Single records saved one after the other in mode ["a"] do not add
    up: the first call writes the record itself, not a list, so the
    second call finds no list to add to and leaves its own record
    alone in the file. *)
Theorem save_json_single_records_do_not_add_up (a b : value) (file_path : string)
    (fs : FS) :
  is_dict a = true ->
  is_dict b = true ->
  json_load env (json_dump env a) = Some a ->
  exists_nonempty file_path fs = false ->
  String.eqb (Os.path_dirname file_path) "" || Os.path_isdir (Os.path_dirname file_path) fs
  = true ->
  _save_json env a file_path "a" fs
  = (Ok tt, <[Os.fs_key file_path := File (json_dump env a)]> fs)
  /\ _save_json env b file_path "a" (_save_json env a file_path "a" fs).2
     = (Ok tt, <[Os.fs_key file_path := File (json_dump env b)]> fs).
Proof.
  intros Ha Hb Hround Hempty Hparent.
  assert (Hnd : fs !! Os.fs_key file_path <> Some Dir).
  { unfold exists_nonempty in Hempty.
    destruct (fs !! Os.fs_key file_path) as [[c|]|]; congruence. }
  assert (H1 : _save_json env a file_path "a" fs
               = (Ok tt, <[Os.fs_key file_path := File (json_dump env a)]> fs)).
  { apply save_json_writes_target; auto.
    - rewrite Ha. reflexivity.
    - rewrite Hempty, andb_false_r. reflexivity. }
  split; [exact H1|]. rewrite H1. cbn [snd].
  rewrite (save_json_writes_target b b).
  - rewrite insert_insert_eq. reflexivity.
  - rewrite Hb. reflexivity.
  - rewrite lookup_insert_eq. discriminate.
  - unfold Os.path_isdir in *.
    destruct (String.eqb (Os.path_dirname file_path) ""); [reflexivity|].
    simpl in *.
    destruct (decide (Os.fs_key file_path = Os.fs_key (Os.path_dirname file_path)))
      as [Heq|Hneq].
    + rewrite <- Heq in Hparent.
      destruct (fs !! Os.fs_key file_path) as [[c|]|]; try discriminate. contradiction.
    + rewrite lookup_insert_ne by exact Hneq. exact Hparent.
  - simpl. unfold read_text.
    destruct (exists_nonempty file_path
                (<[Os.fs_key file_path := File (json_dump env a)]> fs)); [|reflexivity].
    rewrite lookup_insert_eq, Hround.
    destruct a; try discriminate. reflexivity.
Qed.

End StorageFacts.

Section StorageWriters.
Import Storage.
Context (env : Env).

Lemma concat_cons (a : string) (l : list string) :
  String.concat "" (a :: l) = a ++ String.concat "" l.
Proof.
  destruct l as [|b l]; simpl; [rewrite string_app_nil_r|]; reflexivity.
Qed.

Lemma concat_app (l1 l2 : list string) :
  String.concat "" (l1 ++ l2) = String.concat "" l1 ++ String.concat "" l2.
Proof.
  induction l1 as [|a l1 IH]; [reflexivity|].
  change ((a :: l1) ++ l2)%list with (a :: (l1 ++ l2))%list.
  rewrite !concat_cons, IH, string_app_assoc. reflexivity.
Qed.

Lemma jsonl_lines_from (data : list value) (written : string) :
  fold_left (fun written item => written ++ json_dumps env item ++ newline) data written
  = written
    ++ String.concat "" (map (fun item => json_dumps env item ++ newline) data).
Proof.
  revert written. induction data as [|item data IH]; intros written.
  - simpl. rewrite string_app_nil_r. reflexivity.
  - cbn [fold_left map]. rewrite IH, concat_cons, string_app_assoc. reflexivity.
Qed.

(** What [open(file_path, "a")] finds in a file that can be opened. *)
Lemma open_append (file_path : string) (fs : FS) :
  (Os.write_file file_path "" fs).1 = Return tt ->
  exists fs1,
    open_text env file_path "a" fs
    = (Ok match fs !! Os.fs_key file_path with Some (File text) => text | _ => "" end,
       fs1)
    /\ forall text, <[Os.fs_key file_path := File text]> fs1
                    = <[Os.fs_key file_path := File text]> fs.
Proof.
  unfold open_text, Os.write_file. cbn [String.eqb Ascii.eqb Bool.eqb].
  destruct (fs !! Os.fs_key file_path) as [[text|]|] eqn:Hat.
  - intros _. exists fs. split; reflexivity.
  - cbn [fst]. discriminate.
  - destruct (String.eqb (Os.path_dirname file_path) ""
              || Os.path_isdir (Os.path_dirname file_path) fs);
      cbn [fst]; [|discriminate].
    intros _. eexists. split; [reflexivity|].
    intros text. apply insert_insert_eq.
Qed.

(** X19.  In mode ["a"], [_save_jsonl] adds one line for each record, in
    order, after the text that was in the file, and nothing else; a file
    that was missing is made.  So saving one batch and then another leaves
    the lines of the first, then those of the second, as saving the two
    batches at once does. *)
Theorem save_jsonl_append_composes (batch1 batch2 : list value) (file_path : string)
    (fs : FS) :
  let old := match fs !! Os.fs_key file_path with Some (File text) => text | _ => "" end in
  let lines := fun batch : list value =>
    String.concat "" (map (fun item => json_dumps env item ++ newline) batch) in
  (Os.write_file file_path "" fs).1 = Return tt ->
  _save_jsonl env batch1 file_path "a" fs
  = (Ok tt, <[Os.fs_key file_path := File (old ++ lines batch1)]> fs)
  /\ _save_jsonl env batch2 file_path "a" (_save_jsonl env batch1 file_path "a" fs).2
     = (Ok tt, <[Os.fs_key file_path := File (old ++ lines batch1 ++ lines batch2)]> fs)
  /\ _save_jsonl env (batch1 ++ batch2) file_path "a" fs
     = (Ok tt, <[Os.fs_key file_path := File (old ++ lines batch1 ++ lines batch2)]> fs).
Proof.
  intros old lines Hopen.
  assert (Hone : forall batch,
            _save_jsonl env batch file_path "a" fs
            = (Ok tt, <[Os.fs_key file_path := File (old ++ lines batch)]> fs)).
  { intros batch. unfold _save_jsonl, with_open.
    destruct (open_append file_path fs Hopen) as (fs1 & -> & Hins).
    cbn [fst snd]. rewrite jsonl_lines_from, Hins. reflexivity. }
  split; [apply Hone|]. split.
  - rewrite Hone. cbn [snd]. unfold _save_jsonl, with_open, open_text.
    cbn [String.eqb Ascii.eqb Bool.eqb]. rewrite lookup_insert_eq. cbn [fst snd].
    rewrite jsonl_lines_from, insert_insert_eq.
    change ("" ++ String.concat "" (map (fun item => json_dumps env item ++ newline) batch2))
      with (lines batch2).
    rewrite <- string_app_assoc. reflexivity.
  - rewrite Hone. unfold lines. rewrite map_app, concat_app. reflexivity.
Qed.

Lemma writerows_app (fieldnames : list string) (rows1 rows2 : list value)
    (written : string) :
  writerows env fieldnames (rows1 ++ rows2) written
  = match writerows env fieldnames rows1 written with
    | (Ok _, written') => writerows env fieldnames rows2 written'
    | r => r
    end.
Proof.
  revert written. induction rows1 as [|row rows1 IH]; intros written; [reflexivity|].
  cbn [app writerows]. destruct (dict_to_list fieldnames row) as [cells|e];
    [apply IH|reflexivity].
Qed.

(** X20.  [_save_csv] stops at the first record with a field that the first
    record does not have: [ValueError] is raised, and the header and the
    rows before that record are in the file. *)
Theorem save_csv_stops_at_stray_field (items : list (string * value))
    (good rest : list value) (bad : value) (file_path : string) (fs : FS)
    (e : error) (text : string) :
  writerows env (map fst items) (VDict items :: good)
    (header_line env (map fst items)) = (Ok tt, text) ->
  dict_to_list (map fst items) bad = Err e ->
  (Os.write_file file_path "" fs).1 = Return tt ->
  _save_csv env (VDict items :: good ++ bad :: rest) file_path "w" fs
  = (Err e, <[Os.fs_key file_path := File text]> (Os.write_file file_path "" fs).2).
Proof.
  intros Hgood Hbad Hopen.
  unfold _save_csv, with_open, open_text. cbn [String.eqb Ascii.eqb Bool.eqb].
  destruct (Os.write_file file_path "" fs) as [[[]|e0] fs1]; [|discriminate].
  cbn [fst snd]. unfold save_csv_body. cbn [String.eqb Ascii.eqb Bool.eqb orb].
  change (VDict items :: good ++ bad :: rest)
    with ((VDict items :: good) ++ bad :: rest)%list.
  rewrite writerows_app, Hgood. cbn [writerows]. rewrite Hbad. reflexivity.
Qed.

Lemma writerows_cells (fieldnames : list string) (rows : list value)
    (cells : list (list value)) (written : string) :
  Forall2 (fun row row_cells => dict_to_list fieldnames row = Ok row_cells) rows cells ->
  writerows env fieldnames rows written
  = (Ok tt, written ++ String.concat "" (map (csv_line env) cells)).
Proof.
  intros Hrows. revert written.
  induction Hrows as [|row row_cells rows cells Hrow _ IH]; intros written.
  - simpl. rewrite string_app_nil_r. reflexivity.
  - cbn [writerows map]. rewrite Hrow, IH, concat_cons, string_app_assoc. reflexivity.
Qed.

Lemma app_not_empty (a b : string) : b <> "" -> a ++ b <> "".
Proof.
  intros Hb Hempty. apply Hb. apply (f_equal String.length) in Hempty.
  rewrite string_app_length in Hempty.
  destruct b; [reflexivity|simpl in Hempty; lia].
Qed.

(** X21.  In mode ["a"], with a writer that never writes an empty row,
    [_save_csv] adds the rows of the records, in order, after the text that
    was in the file; the header goes before them when the file was missing
    or empty, and only then.  So saving one batch and then another whose
    first record has the same fields leaves the header once at most, then
    the rows of the first batch, then those of the second, as saving the
    two batches at once does. *)
Theorem save_csv_append_composes (items1 items2 : list (string * value))
    (rest1 rest2 : list value) (cells1 cells2 : list (list value))
    (file_path : string) (fs : FS) :
  let fieldnames := map fst items1 in
  let old := match fs !! Os.fs_key file_path with Some (File text) => text | _ => "" end in
  let header := if String.eqb old "" then header_line env fieldnames else "" in
  let rows := fun cells : list (list value) =>
    String.concat "" (map (csv_line env) cells) in
  map fst items1 = map fst items2 ->
  (forall cells, csv_line env cells <> "") ->
  Forall2 (fun row row_cells => dict_to_list fieldnames row = Ok row_cells)
    (VDict items1 :: rest1) cells1 ->
  Forall2 (fun row row_cells => dict_to_list fieldnames row = Ok row_cells)
    (VDict items2 :: rest2) cells2 ->
  (Os.write_file file_path "" fs).1 = Return tt ->
  _save_csv env (VDict items1 :: rest1) file_path "a" fs
  = (Ok tt, <[Os.fs_key file_path := File (old ++ header ++ rows cells1)]> fs)
  /\ _save_csv env (VDict items2 :: rest2) file_path "a"
       (_save_csv env (VDict items1 :: rest1) file_path "a" fs).2
     = (Ok tt,
        <[Os.fs_key file_path := File (old ++ header ++ rows cells1 ++ rows cells2)]> fs)
  /\ _save_csv env ((VDict items1 :: rest1) ++ VDict items2 :: rest2) file_path "a" fs
     = (Ok tt,
        <[Os.fs_key file_path := File (old ++ header ++ rows cells1 ++ rows cells2)]> fs).
Proof.
  intros fieldnames old header rows Hfields Hline Hrows1 Hrows2 Hopen.
  assert (Hone : forall rest cells,
            Forall2 (fun row row_cells => dict_to_list fieldnames row = Ok row_cells)
              (VDict items1 :: rest) cells ->
            _save_csv env (VDict items1 :: rest) file_path "a" fs
            = (Ok tt, <[Os.fs_key file_path := File (old ++ header ++ rows cells)]> fs)).
  { intros rest cells Hcells. unfold _save_csv, with_open.
    destruct (open_append file_path fs Hopen) as (fs1 & -> & Hins).
    unfold save_csv_body. cbn [String.eqb Ascii.eqb Bool.eqb orb].
    fold fieldnames. rewrite (writerows_cells fieldnames _ cells) by exact Hcells.
    cbn [fst snd]. rewrite Hins. fold old. fold (rows cells).
    replace (if negb (exists_nonempty file_path fs) then header_line env fieldnames else "")
      with header; [reflexivity|].
    unfold header, old, exists_nonempty, Os.write_file in *.
    destruct (fs !! Os.fs_key file_path) as [[text|]|]; [|discriminate Hopen|reflexivity].
    destruct (String.eqb text ""); reflexivity. }
  split; [apply Hone, Hrows1|]. split.
  - rewrite (Hone rest1 cells1 Hrows1). cbn [snd].
    unfold _save_csv, with_open, open_text, exists_nonempty.
    cbn [String.eqb Ascii.eqb Bool.eqb]. rewrite lookup_insert_eq.
    assert (Hfull : String.eqb (old ++ header ++ rows cells1) "" = false).
    { apply String.eqb_neq. do 2 apply app_not_empty.
      inversion Hrows1 as [|? row_cells ? cells Hrow Hrest]; subst.
      unfold rows. cbn [map]. rewrite concat_cons.
      intros Hempty. apply (Hline row_cells).
      apply (f_equal String.length) in Hempty. rewrite string_app_length in Hempty.
      destruct (csv_line env row_cells); [reflexivity|simpl in Hempty; lia]. }
    rewrite Hfull. unfold save_csv_body.
    cbn [String.eqb Ascii.eqb Bool.eqb negb orb]. rewrite <- Hfields.
    fold fieldnames. rewrite (writerows_cells fieldnames _ cells2) by exact Hrows2.
    cbn [fst snd]. rewrite insert_insert_eq.
    change ("" ++ String.concat "" (map (csv_line env) cells2)) with (rows cells2).
    rewrite <- !string_app_assoc. reflexivity.
  - change ((VDict items1 :: rest1) ++ VDict items2 :: rest2)%list
      with (VDict items1 :: (rest1 ++ VDict items2 :: rest2))%list.
    rewrite (Hone _ (cells1 ++ cells2)%list).
    + unfold rows. rewrite map_app, concat_app. reflexivity.
    + change (VDict items1 :: (rest1 ++ VDict items2 :: rest2))%list
        with ((VDict items1 :: rest1) ++ VDict items2 :: rest2)%list.
      apply Forall2_app; assumption.
Qed.

Lemma ancestors_last (above : string) (names : list string) :
  names <> [] -> (above ++ String.concat "/" names) ∈ ancestors above names.
Proof.
  revert above. induction names as [|name names IH]; intros above Hne; [contradiction|].
  destruct names as [|next names].
  - simpl. left.
  - change (ancestors above (name :: next :: names))
      with ((above ++ name) :: ancestors (above ++ name ++ "/") (next :: names)).
    change (String.concat "/" (name :: next :: names))
      with (name ++ "/" ++ String.concat "/" (next :: names)).
    right.
    replace (above ++ name ++ "/" ++ String.concat "/" (next :: names))
      with ((above ++ name ++ "/") ++ String.concat "/" (next :: names)).
    + apply IH. discriminate.
    + rewrite <- !string_app_assoc. reflexivity.
Qed.

Lemma mkdir_chain_only (ds : list string) (fs : FS) (k : string) (v : node) :
  (Os.mkdir_chain ds fs).2 !! k = Some v -> fs !! k = Some v \/ (v = Dir /\ k ∈ ds).
Proof.
  revert fs. induction ds as [|d ds IH]; intros fs; [left; assumption|].
  simpl. unfold Os.mkdir_exist_ok.
  destruct (fs !! d) as [[c|]|] eqn:Hd; simpl.
  - left. assumption.
  - intros Hk. destruct (IH _ Hk) as [H|[-> H]]; [left; exact H|].
    right. split; [reflexivity|right; exact H].
  - intros Hk. destruct (IH _ Hk) as [H|[-> H]].
    + destruct (decide (d = k)) as [<-|Hne].
      * rewrite lookup_insert_eq in H. injection H as <-.
        right. split; [reflexivity|left].
      * rewrite lookup_insert_ne in H by exact Hne. left. exact H.
    + right. split; [reflexivity|right; exact H].
Qed.

(** X22.  A format that is none of the three, with a plain path for the
    file: [ValueError] is raised, but only after [_build_file_path] has
    made the directory the file would be in.  No file is written or
    changed, and no directory is removed or made but that one and those
    above it. *)
Theorem unsupported_format_makes_directory (data : value) (filename : string)
    (file_format output_dir mode : option string) (fs : FS) :
  let fmt := or_default file_format (storage_default_format env) in
  let file_path :=
    joinpath (path (or_default output_dir (storage_default_dir env)))
      (filename ++ "." ++ fmt) in
  let made :=
    map Os.fs_key (ancestors (anchor (parent file_path)) (names (parent file_path))) in
  let result := save_data_to_file env data filename file_format output_dir mode fs in
  truthy data = true ->
  fmt <> "csv" -> fmt <> "json" -> fmt <> "jsonl" ->
  plain file_path = true ->
  (mkdir_parents (parent file_path) fs).1 = Return tt ->
  result.1 = Err (Exn ValueError)
  /\ (names (parent file_path) <> [] ->
      Os.path_isdir (path_str (parent file_path)) result.2 = true)
  /\ (forall k text, result.2 !! k = Some (File text) <-> fs !! k = Some (File text))
  /\ (forall k, result.2 !! k = Some Dir <-> fs !! k = Some Dir \/ k ∈ made).
Proof.
  intros fmt file_path made result Hdata Hcsv Hjson Hjsonl _ Hmk.
  assert (Hresult : result
                    = (Err (Exn ValueError), (mkdir_parents (parent file_path) fs).2)).
  { unfold result, save_data_to_file, _build_file_path. rewrite Hdata. cbn [negb].
    fold fmt. fold file_path.
    destruct (mkdir_parents (parent file_path) fs) as [[[]|e] fs1]; [|discriminate].
    apply String.eqb_neq in Hcsv, Hjson, Hjsonl.
    rewrite Hcsv, Hjson, Hjsonl. reflexivity. }
  rewrite Hresult. cbn [fst snd]. clear Hresult.
  unfold mkdir_parents in *. fold made in Hmk |- *.
  assert (Hall : forall d, d ∈ made -> (Os.mkdir_chain made fs).2 !! d = Some Dir).
  { apply (mkdir_chain_ok made fs).
    destruct (Os.mkdir_chain made fs) as [[[]|e] fs1]; [reflexivity|discriminate]. }
  split; [reflexivity|]. split; [|split].
  - intros Hnames. unfold Os.path_isdir. rewrite Hall; [reflexivity|].
    unfold made. apply list_elem_of_fmap. eexists. split; [reflexivity|].
    unfold path_str. destruct (names (parent file_path)) eqn:Hn; [contradiction|].
    rewrite <- Hn. apply ancestors_last. rewrite Hn. discriminate.
  - intros k text. split.
    + intros Hk. destruct (mkdir_chain_only _ _ _ _ Hk) as [H|[H _]];
        [exact H|discriminate].
    + apply mkdir_chain_keeps_entry.
  - intros k. split.
    + intros Hk. destruct (mkdir_chain_only _ _ _ _ Hk) as [H|[_ H]]; auto.
    + intros [Hk|Hk]; [apply mkdir_chain_keeps_entry, Hk|apply Hall, Hk].
Qed.

End StorageWriters.

Import Storage StorageExamples.

Lemma env1_rows_not_empty (cells : list value) : csv_line env1 cells <> "".
Proof.
  simpl. intros H. apply (f_equal String.length) in H.
  rewrite string_app_length in H. simpl in H. lia.
Qed.

Lemma save_json_appends_to_list_witness :
  fs_list !! Os.fs_key "data/out.json" = Some (File (show (VList [rec_a])))
  /\ json_load env1 (show (VList [rec_a])) = Some (VList [rec_a])
  /\ _normalize_records rec_b = Ok [rec_b]
  /\ _save_json env1 rec_b "data/out.json" "a" fs_list
     = (Ok tt,
        <[Os.fs_key "data/out.json" :=
            File (json_dump env1 (VList ([rec_a] ++ [rec_b])))]> fs_list).
Proof.
  split; [vm_compute; reflexivity|]. split; [vm_compute; reflexivity|].
  split; [reflexivity|].
  apply (save_json_appends_to_list env1 rec_b "data/out.json" fs_list
           (show (VList [rec_a])) [rec_a] [rec_b]);
    try (vm_compute; reflexivity).
  vm_compute. discriminate.
Defined.

Lemma save_json_replaces_unless_list_witness :
  "x" <> "a"
  /\ _save_json env1 rec_b "data/out.json" "x" fs_list
     = (Ok tt, <[Os.fs_key "data/out.json" := File (json_dump env1 rec_b)]> fs_list).
Proof.
  split; [discriminate|].
  apply (save_json_replaces_unless_list env1 rec_b "data/out.json" "x" fs_list);
    [reflexivity|vm_compute; discriminate|vm_compute; reflexivity|left; discriminate].
Defined.

Lemma save_json_single_records_do_not_add_up_witness :
  json_load env1 (json_dump env1 rec_a) = Some rec_a
  /\ exists_nonempty "data/out.json" fs_data = false
  /\ _save_json env1 rec_a "data/out.json" "a" fs_data
     = (Ok tt, <[Os.fs_key "data/out.json" := File (json_dump env1 rec_a)]> fs_data)
  /\ _save_json env1 rec_b "data/out.json" "a"
       (_save_json env1 rec_a "data/out.json" "a" fs_data).2
     = (Ok tt, <[Os.fs_key "data/out.json" := File (json_dump env1 rec_b)]> fs_data).
Proof.
  split; [vm_compute; reflexivity|]. split; [vm_compute; reflexivity|].
  apply (save_json_single_records_do_not_add_up env1 rec_a rec_b "data/out.json" fs_data);
    vm_compute; reflexivity.
Defined.

Lemma save_jsonl_append_composes_witness :
  (Os.write_file "data/out.jsonl" "" fs_data).1 = Return tt
  /\ _save_jsonl env1 [rec_b] "data/out.jsonl" "a"
       (_save_jsonl env1 [rec_a] "data/out.jsonl" "a" fs_data).2
     = (Ok tt,
        <[Os.fs_key "data/out.jsonl" :=
            File (json_dumps env1 rec_a ++ newline ++ json_dumps env1 rec_b ++ newline)]>
          fs_data).
Proof.
  split; [vm_compute; reflexivity|].
  apply (save_jsonl_append_composes env1 [rec_a] [rec_b] "data/out.jsonl" fs_data).
  vm_compute. reflexivity.
Defined.

Lemma save_csv_stops_at_stray_field_witness :
  dict_to_list ["id"; "name"] rec_stray = Err (Exn ValueError)
  /\ _save_csv env1 [rec_a; rec_b; rec_stray; rec_a] "data/out.csv" "w" fs_data
     = (Err (Exn ValueError),
        <[Os.fs_key "data/out.csv" :=
            File ("id,name" ++ crlf ++ "1,a" ++ crlf ++ "2,b" ++ crlf)]>
          (Os.write_file "data/out.csv" "" fs_data).2).
Proof.
  split; [reflexivity|].
  apply (save_csv_stops_at_stray_field env1 [("id", VInt 1); ("name", VStr "a")]
           [rec_b] [rec_a] rec_stray "data/out.csv" fs_data (Exn ValueError)
           ("id,name" ++ crlf ++ "1,a" ++ crlf ++ "2,b" ++ crlf));
    [vm_compute; reflexivity|reflexivity|vm_compute; reflexivity].
Defined.

Lemma save_csv_append_composes_witness :
  dict_to_list ["id"; "name"] rec_a = Ok [VInt 1; VStr "a"]
  /\ dict_to_list ["id"; "name"] rec_b = Ok [VInt 2; VStr "b"]
  /\ _save_csv env1 [rec_b] "data/out.csv" "a"
       (_save_csv env1 [rec_a] "data/out.csv" "a" fs_data).2
     = (Ok tt,
        <[Os.fs_key "data/out.csv" :=
            File ("id,name" ++ crlf ++ "1,a" ++ crlf ++ "2,b" ++ crlf)]> fs_data).
Proof.
  split; [reflexivity|]. split; [reflexivity|].
  apply (save_csv_append_composes env1 [("id", VInt 1); ("name", VStr "a")]
           [("id", VInt 2); ("name", VStr "b")] [] []
           [[VInt 1; VStr "a"]] [[VInt 2; VStr "b"]] "data/out.csv" fs_data);
    [reflexivity|exact env1_rows_not_empty
    |repeat constructor|repeat constructor|vm_compute; reflexivity].
Defined.

Lemma unsupported_format_makes_directory_witness :
  path_str (joinpath (path "./new//dir/") "out.xml") = "new/dir/out.xml"
  /\ (save_data_to_file env1 rec_a "out" (Some "xml") (Some "./new//dir/") None fs_data).1
     = Err (Exn ValueError)
  /\ Os.path_isdir "new/dir"
       (save_data_to_file env1 rec_a "out" (Some "xml") (Some "./new//dir/") None
          fs_data).2 = true.
Proof.
  split; [vm_compute; reflexivity|].
  destruct (unsupported_format_makes_directory env1 rec_a "out" (Some "xml")
              (Some "./new//dir/") None fs_data) as (Hraise & Hdir & _);
    [reflexivity|discriminate|discriminate|discriminate|reflexivity
    |vm_compute; reflexivity|].
  split; [exact Hraise|apply Hdir; discriminate].
Defined.
